(** * Feature visualisation ("dream") loop of optimization_tutorial.ipynb

    Shallow embedding of the cells that define the normalisation constants,
    [img_transform], [random_shift], [default_grad_fn], [dream] and
    [my_grad_fn].  Tensor entries are modelled as IEEE-style values without
    rounding: an exact rational, NaN, or a signed infinity.  The operations
    follow IEEE special-value rules (0/0 = NaN, NaN propagates through
    [torch.max]/[torch.min]/[clamp]), which is what the claims on zero
    gradients depend on; rounding is not modelled.  Signed zeros are not
    distinguished: the only divisor that can be zero in [dream] is the mean
    of absolute values, which is +0. *)

From Stdlib Require Import QArith Qabs Qminmax ZArith List Lia Lqa Bool Strings.Byte.
Import ListNotations.

Open Scope Q_scope.

(** ** Values *)

Inductive fval : Type :=
| Fin (q : Q)
| NaN
| PInf
| NInf.

Definition fneg (a : fval) : fval :=
  match a with
  | Fin q => Fin (- q)
  | NaN => NaN
  | PInf => NInf
  | NInf => PInf
  end.

Definition fabs (a : fval) : fval :=
  match a with
  | Fin q => Fin (Qabs q)
  | NaN => NaN
  | _ => PInf
  end.

Definition fadd (a b : fval) : fval :=
  match a, b with
  | NaN, _ | _, NaN => NaN
  | PInf, NInf | NInf, PInf => NaN
  | PInf, _ | _, PInf => PInf
  | NInf, _ | _, NInf => NInf
  | Fin x, Fin y => Fin (x + y)
  end.

Definition fsub (a b : fval) : fval := fadd a (fneg b).

(** Sign of a value: [Gt] positive, [Lt] negative, [Eq] zero (NaN gives Eq,
    it is filtered first by every user). *)
Definition fsign (a : fval) : comparison :=
  match a with
  | Fin q => Qcompare q 0
  | PInf => Gt
  | NInf => Lt
  | NaN => Eq
  end.

Definition inf_of_sign (c : comparison) : fval :=
  match c with
  | Gt => PInf
  | Lt => NInf
  | Eq => NaN
  end.

Definition sign_mul (c d : comparison) : comparison :=
  match c, d with
  | Eq, _ | _, Eq => Eq
  | Gt, Gt | Lt, Lt => Gt
  | _, _ => Lt
  end.

Definition fmul (a b : fval) : fval :=
  match a, b with
  | NaN, _ | _, NaN => NaN
  | Fin x, Fin y => Fin (x * y)
  | _, _ => inf_of_sign (sign_mul (fsign a) (fsign b))
  end.

(** Division; a zero divisor is +0 (see the header). *)
Definition fdiv (a b : fval) : fval :=
  match a, b with
  | NaN, _ | _, NaN => NaN
  | (PInf | NInf), (PInf | NInf) => NaN
  | Fin _, (PInf | NInf) => Fin 0
  | Fin x, Fin y =>
      if Qeq_bool y 0 then inf_of_sign (Qcompare x 0) else Fin (x / y)
  | (PInf | NInf), Fin y =>
      match Qcompare y 0 with
      | Eq => a
      | Gt => a
      | Lt => fneg a
      end
  end.

(** Strict order on non-NaN values. *)
Definition fltb (a b : fval) : bool :=
  match a, b with
  | Fin x, Fin y => negb (Qle_bool y x)
  | NInf, (Fin _ | PInf) => true
  | Fin _, PInf => true
  | _, _ => false
  end.

Definition is_nan (a : fval) : bool :=
  match a with NaN => true | _ => false end.

(** [torch.max(a, b)] / [torch.min(a, b)] elementwise: NaN propagates. *)
Definition fmaximum (a b : fval) : fval :=
  if is_nan a || is_nan b then NaN else if fltb a b then b else a.

Definition fminimum (a b : fval) : fval :=
  if is_nan a || is_nan b then NaN else if fltb b a then b else a.

(** [Tensor.clamp(lo, hi)]: NaN stays NaN. *)
Definition fclamp (lo hi : Q) (a : fval) : fval :=
  fminimum (fmaximum a (Fin lo)) (Fin hi).

(** Numeric equality of values (rationals compared with [==]). *)
Definition feq (a b : fval) : Prop :=
  match a, b with
  | Fin x, Fin y => x == y
  | NaN, NaN | PInf, PInf | NInf, NInf => True
  | _, _ => False
  end.

Definition is_fin (a : fval) : Prop :=
  match a with Fin _ => True | _ => False end.

(** Membership of the display range [0, 1]. *)
Definition in_unit (a : fval) : Prop :=
  match a with Fin q => 0 <= q /\ q <= 1 | _ => False end.

(** ** Tensors

    A three-dimensional tensor: its shape and its entries, indexed
    [tat i j k] for [i < d0], [j < d1], [k < d2]. *)

Record Tensor3 : Type := mkT {
  d0 : nat;
  d1 : nat;
  d2 : nat;
  tat : nat -> nat -> nat -> fval
}.

Definition shape (t : Tensor3) : nat * nat * nat := (d0 t, d1 t, d2 t).

Definition in_shape (t : Tensor3) (i j k : nat) : Prop :=
  (i < d0 t)%nat /\ (j < d1 t)%nat /\ (k < d2 t)%nat.

Definition tmap (f : fval -> fval) (t : Tensor3) : Tensor3 :=
  mkT (d0 t) (d1 t) (d2 t) (fun i j k => f (tat t i j k)).

(** Elementwise binary operation with the shape of the left operand
    (the callers only combine tensors of the same shape). *)
Definition tzip (f : fval -> fval -> fval) (a b : Tensor3) : Tensor3 :=
  mkT (d0 a) (d1 a) (d2 a) (fun i j k => f (tat a i j k) (tat b i j k)).

(** Per-channel constant broadcast as [c[:, None, None]]. *)
Definition tchan_op (f : fval -> fval -> fval) (a : Tensor3) (c : nat -> fval)
  : Tensor3 :=
  mkT (d0 a) (d1 a) (d2 a) (fun i j k => f (tat a i j k) (c i)).

Fixpoint sum_range (n : nat) (f : nat -> fval) : fval :=
  match n with
  | O => Fin 0
  | S m => fadd (sum_range m f) (f m)
  end.

Definition tsum (t : Tensor3) : fval :=
  sum_range (d0 t) (fun i =>
    sum_range (d1 t) (fun j =>
      sum_range (d2 t) (fun k => tat t i j k))).

Definition numel (t : Tensor3) : nat := (d0 t * d1 t * d2 t)%nat.

(** [Tensor.mean()]: sum over every entry divided by the count. *)
Definition tmean (t : Tensor3) : fval :=
  fdiv (tsum t) (Fin (inject_Z (Z.of_nat (numel t)))).

(** [Tensor.permute(1, 2, 0)]: C x H x W becomes H x W x C. *)
Definition permute120 (t : Tensor3) : Tensor3 :=
  mkT (d1 t) (d2 t) (d0 t) (fun j k i => tat t i j k).

(** ** Normalisation constants

    [mean = torch.tensor([0.485, 0.456, 0.406])],
    [std = torch.tensor([0.229, 0.224, 0.225])]. *)

Definition mean_q (c : nat) : Q := nth c [485 # 1000; 456 # 1000; 406 # 1000] 0.
Definition std_q (c : nat) : Q := nth c [229 # 1000; 224 # 1000; 225 # 1000] 1.

Definition mean (c : nat) : fval := Fin (mean_q c).
Definition std (c : nat) : fval := Fin (std_q c).

(** [normalize = transforms.Normalize(mean.tolist(), std.tolist())]:
    [(x - mean) / std] per channel. *)
Definition normalize (t : Tensor3) : Tensor3 :=
  tchan_op fdiv (tchan_op fsub t mean) std.

(** [unnormalize = transforms.Normalize((-mean / std).tolist(),
    (1.0 / std).tolist())]. *)
Definition un_mean (c : nat) : fval := fdiv (fneg (mean c)) (std c).
Definition un_std (c : nat) : fval := fdiv (Fin 1) (std c).

Definition unnormalize (t : Tensor3) : Tensor3 :=
  tchan_op fdiv (tchan_op fsub t un_mean) un_std.

(** [clamp_min = -mean[:, None, None] / std[:, None, None]] and
    [clamp_max = (1 - mean[:, None, None]) / std[:, None, None]]. *)
Definition clamp_min (c : nat) : fval := fdiv (fneg (mean c)) (std c).
Definition clamp_max (c : nat) : fval := fdiv (fsub (Fin 1) (mean c)) (std c).

(** ** Input images and [img_transform]

    An RGB [PIL.Image]: width, height and the byte of band [b] at
    column [x], row [y]. *)

Record PILImage : Type := mkPIL {
  pw : nat;
  ph : nat;
  ppix : nat -> nat -> nat -> byte
}.

Section Transform.

(** The resampling filter of PIL: the pixels of the image resized to the
    given width and height (the pixel arithmetic is the library's). *)
Variable resample : PILImage -> nat -> nat -> nat -> nat -> nat -> byte.

(** [transforms.Resize(size)] with an integer [size]: the shorter side
    becomes [size], the longer one [int(size * long / short)]; an image
    whose shorter side already is [size] is returned as it is. *)
Definition resize_dims (w h size : nat) : nat * nat :=
  if (Nat.leb w h && Nat.eqb w size) || (Nat.leb h w && Nat.eqb h size)
  then (w, h)
  else if Nat.ltb w h then (size, size * h / w)%nat
  else (size * w / h, size)%nat.

Definition resize (img : PILImage) (size : nat) : PILImage :=
  if (Nat.leb (pw img) (ph img) && Nat.eqb (pw img) size)
     || (Nat.leb (ph img) (pw img) && Nat.eqb (ph img) size)
  then img
  else let '(ow, oh) := resize_dims (pw img) (ph img) size in
       mkPIL ow oh (resample img ow oh).

(** [transforms.ToTensor()]: H x W x C bytes to a C x H x W tensor in
    [0, 1]. *)
Definition to_tensor (img : PILImage) : Tensor3 :=
  mkT 3 (ph img) (pw img)
    (fun c y x => Fin (inject_Z (Z.of_nat (Byte.to_nat (ppix img x y c))) / 255)).

(** [img_transform = Compose([Resize(256), ToTensor(), normalize])]. *)
Definition img_transform (img : PILImage) : Tensor3 :=
  normalize (to_tensor (resize img 256)).

End Transform.

(** ** Effects: the process-wide random source and a trace of calls

    The global [random] module is a stream of draws read at a position;
    the trace records the calls made to the model and the objective. *)

Inductive event : Type :=
| EvForward
| EvObjective
| EvBackward.

Record St : Type := mkSt {
  rpos : nat;
  trace : list event
}.

Definition M (A : Type) : Type := St -> option A * St.

Definition ret {A} (a : A) : M A := fun s => (Some a, s).

Definition bind {A B} (m : M A) (f : A -> M B) : M B :=
  fun s => match m s with
           | (Some a, s') => f a s'
           | (None, s') => (None, s')
           end.

Notation "x <- m ;; k" := (bind m (fun x => k))
  (at level 61, m at next level, right associativity).
Notation "m ;;; k" := (bind m (fun _ => k))
  (at level 61, right associativity).

(** A raised exception: the run stops. *)
Definition raise {A} : M A := fun s => (None, s).

Definition lift {A} (o : option A) : M A :=
  match o with Some a => ret a | None => raise end.

Definition emit (e : event) : M unit :=
  fun s => (Some tt, mkSt (rpos s) (trace s ++ [e])).

(** [random.randint(a, b)]: the next draw of the source, in [[a, b]]. *)
Definition randint (draws : nat -> Z) (a b : Z) : M Z :=
  fun s => (Some (a + Z.modulo (draws (rpos s)) (b - a + 1))%Z,
            mkSt (S (rpos s)) (trace s)).

(** ** The forward model and the objectives *)

(** The frozen network: [model(x)] gives the list of stage outputs (or
    raises), and [vjp x l seed] is the gradient with respect to [x] left
    by [model(x)[l].backward(seed)]. *)
Record Net : Type := mkNet {
  forward : Tensor3 -> option (list Tensor3);
  vjp : Tensor3 -> nat -> Tensor3 -> Tensor3
}.

(** An objective [grad_fn(output)] runs [output[l].backward(seed)]; it
    is modelled by the stage [l] and the seed it back-propagates, or
    [None] when it raises (an [IndexError], for instance). *)
Definition GradFn : Type := list Tensor3 -> option (nat * Tensor3).

(** [layer = 2]; [default_grad_fn(output)]:
    [output[layer].backward(output[layer])]. *)
Definition layer : nat := 2.

Definition default_grad_fn : GradFn :=
  fun output => match nth_error output layer with
                | Some o => Some (layer, o)
                | None => None
                end.

(** [o.view(o.shape[0], -1)]: entry [(c, p)] of the flattened tensor. *)
Definition flat (t : Tensor3) (c p : nat) : fval :=
  tat t c (p / d2 t) (p mod d2 t).

(** Entry [(p, q)] of [torch.matmul(o.t(), g)]. *)
Definition simil (o g : Tensor3) (p q : nat) : fval :=
  sum_range (d0 o) (fun c => fmul (flat o c p) (flat g c q)).

(** [torch.argmax] takes NaN as the largest value. *)
Definition better (a b : fval) : bool :=
  (is_nan a && negb (is_nan b)) || fltb b a.

(** Index of the first maximal value of [f 0 .. f (n-1)]. *)
Fixpoint argmax_first (n : nat) (f : nat -> fval) : nat :=
  match n with
  | O => O
  | S m =>
      let b := argmax_first m f in
      match m with
      | O => O
      | _ => if better (f m) (f b) then m else b
      end
  end.

(** [r.argmax(1)] at row [p]. *)
Definition best_match (o g : Tensor3) (p : nat) : nat :=
  argmax_first (d1 g * d2 g) (simil o g p).

(** The guided objective [my_grad_fn], with the precomputed [guide]
    passed explicitly:
<<
  o = output[layer]; g = guide[layer]; shape = o.shape
  o = o.view(o.shape[0], -1); g = g.view(g.shape[0], -1)
  r = torch.matmul(o.t(), g)
  r = g[:, r.argmax(1)]
  r = r.view(shape)
  output[layer].backward(r)
>>
    [matmul] raises when the channel counts differ, and [argmax(1)] raises
    on rows of length 0. *)
Definition my_grad_fn (guide : list Tensor3) : GradFn :=
  fun output =>
    match nth_error output layer, nth_error guide layer with
    | Some o, Some g =>
        if Nat.eqb (d0 o) (d0 g) && negb (Nat.eqb (d1 g * d2 g) 0)
        then Some (layer,
               mkT (d0 o) (d1 o) (d2 o)
                 (fun c i j => flat g c (best_match o g (i * d2 o + j))))
        else None
    | _, _ => None
    end.

(** The objective [my_grad_fn2]:
<<
  grad_ = torch.zeros(1000, 1, 1, device=device)
  grad_[153] = 1
  grad_[281] = 1
  output[4].backward(grad_)
>>
    [output[4]] raises an [IndexError] on fewer than five stages. *)
Definition my_grad_fn2 : GradFn :=
  fun output =>
    match nth_error output 4 with
    | Some _ => Some (4%nat, mkT 1000 1 1 (fun c _ _ =>
                       if Nat.eqb c 153 || Nat.eqb c 281 then Fin 1 else Fin 0))
    | None => None
    end.

(** ** Random shifts

    The region [data[:, top:top+h, left:left+w]] of a slice. *)
Record View : Type := mkView {
  v_top : nat;
  v_left : nat;
  v_h : nat;
  v_w : nat
}.

Definition full_view (t : Tensor3) : View := mkView 0 0 (d1 t) (d2 t).

(** Python's [a:-b] on an axis of length [n], for [0 <= a] and [1 <= b]. *)
Definition py_slice (n a b : nat) : nat * nat :=
  let start := Nat.min a n in
  let stop := (n - b)%nat in
  (start, (stop - start)%nat).

Definition slice_view (t : Tensor3) (top bot left right : Z) : View :=
  let '(y0, h) := py_slice (d1 t) (Z.to_nat top) (Z.to_nat bot) in
  let '(x0, w) := py_slice (d2 t) (Z.to_nat left) (Z.to_nat right) in
  mkView y0 x0 h w.

(** The tensor seen through a view. *)
Definition slice (t : Tensor3) (v : View) : Tensor3 :=
  mkT (d0 t) (v_h v) (v_w v)
    (fun c i j => tat t c (i + v_top v) (j + v_left v)).

(** The backward of slicing: the gradient of the view scattered into a
    zero tensor of the full shape. *)
Definition inside (v : View) (i j : nat) : bool :=
  Nat.leb (v_top v) i && Nat.ltb i (v_top v + v_h v)
  && Nat.leb (v_left v) j && Nat.ltb j (v_left v + v_w v).

Definition unslice (t : Tensor3) (v : View) (g : Tensor3) : Tensor3 :=
  mkT (d0 t) (d1 t) (d2 t)
    (fun c i j => if inside v i j
                  then tat g c (i - v_top v) (j - v_left v)
                  else Fin 0).

Section Dream.

Variable resample : PILImage -> nat -> nat -> nat -> nat -> nat -> byte.
(** The frozen model [model]. *)
Variable net : Net.
(** The draws of the global random source. *)
Variable draws : nat -> Z.
(** The globals [do_random_shifts] and [shift]. *)
Variable do_random_shifts : bool.
Variable shift : Z.

(** [random_shift(data)]:
    [data[:, randint(0, shift):-randint(1, shift),
          randint(0, shift):-randint(1, shift)]],
    the four draws taken left to right. *)
Definition random_shift (data : Tensor3) : M View :=
  top <- randint draws 0 shift ;;
  bot <- randint draws 1 shift ;;
  left <- randint draws 0 shift ;;
  right <- randint draws 1 shift ;;
  ret (slice_view data top bot left right).

Variable grad_fn : GradFn.
Variable learning_rate : Q.

(** Lines [data.requires_grad_()] to [grad_fn(output)] of one iteration:
    the gradient [data.grad] left by the backward pass. *)
Definition step_grad (data : Tensor3) : M Tensor3 :=
  v <- (if do_random_shifts then random_shift data else ret (full_view data)) ;;
  let x := slice data v in
  emit EvForward ;;;
  output <- lift (forward net x) ;;
  emit EvObjective ;;;
  ls <- lift (grad_fn output) ;;
  let '(l, seed) := ls in
  o <- lift (nth_error output l) ;;
  if Nat.eqb (d0 seed) (d0 o) && Nat.eqb (d1 seed) (d1 o)
     && Nat.eqb (d2 seed) (d2 o)
  then emit EvBackward ;;; ret (unslice data v (vjp net x l seed))
  else raise.

(** The [torch.no_grad()] block:
<<
  grad_mean = data.grad.abs().mean()
  data += data.grad * learning_rate / grad_mean
  data = torch.max(data, clamp_min)
  data = torch.min(data, clamp_max)
>> *)
Definition sgd_update (data grad : Tensor3) : Tensor3 :=
  let grad_mean := tmean (tmap fabs grad) in
  let data1 := tzip fadd data
                 (tmap (fun g => fdiv (fmul g (Fin learning_rate)) grad_mean)
                    grad) in
  tchan_op fminimum (tchan_op fmaximum data1 clamp_min) clamp_max.

Definition dream_iter (data : Tensor3) : M Tensor3 :=
  grad <- step_grad data ;;
  ret (sgd_update data grad).

(** [for i in range(n_iter)]. *)
Fixpoint dream_loop (n : nat) (data : Tensor3) : M Tensor3 :=
  match n with
  | O => ret data
  | S m => data' <- dream_iter data ;; dream_loop m data'
  end.

(** [dream(img, n_iter, grad_fn, learning_rate)]; [range(n_iter)] is empty
    for [n_iter <= 0]. *)
Definition dream (img : PILImage) (n_iter : Z) : M Tensor3 :=
  let data := img_transform resample img in
  data' <- dream_loop (Z.to_nat n_iter) data ;;
  ret (permute120 (tmap (fclamp 0 1) (unnormalize data'))).

End Dream.

(** ** The model: [CustomResNet.forward]

    The blocks of the network are the library's and may raise; each is a
    partial map on tensors. [stem] is [conv1], [bn1], [relu] and [maxpool],
    [head] is [adaptive_avg_pool2d], the two [view]s and [fc]. On a 3-d
    input the batch axis added by [x[None]] is removed again by
    [r[0] for r in result]. *)
Section CustomResNet.

Variables stem layer1 layer2 layer3 layer4 head : Tensor3 -> option Tensor3.

Definition custom_forward (x : Tensor3) : option (list Tensor3) :=
  match stem x with
  | None => None
  | Some x0 =>
      match layer1 x0 with
      | None => None
      | Some x1 =>
          match layer2 x1 with
          | None => None
          | Some x2 =>
              match layer3 x2 with
              | None => None
              | Some x3 =>
                  match layer4 x3 with
                  | None => None
                  | Some x4 =>
                      match head x4 with
                      | None => None
                      | Some y => Some [x1; x2; x3; x4; y]
                      end
                  end
              end
          end
      end
  end.

End CustomResNet.

(** ** Predicates on tensors *)

(** Every entry of the tensor is (numerically) zero. *)
Definition all_zero (t : Tensor3) : Prop :=
  forall c i j, in_shape t c i j -> exists q, tat t c i j = Fin q /\ q == 0.

(** Every entry of the tensor is NaN. *)
Definition all_nan (t : Tensor3) : Prop :=
  forall c i j, in_shape t c i j -> tat t c i j = NaN.

(** [d] has the shape of [d0] and, entry by entry, the same finite values. *)
Definition same_values (d0 d : Tensor3) : Prop :=
  shape d = shape d0 /\
  forall c i j, in_shape d0 c i j ->
    exists x x0, tat d c i j = Fin x /\ tat d0 c i j = Fin x0 /\ x == x0.

(** Every entry is finite and inside the clamp bounds. *)
Definition in_bounds (d : Tensor3) : Prop :=
  forall c i j, in_shape d c i j -> exists x0, tat d c i j = Fin x0 /\
    - mean_q c / std_q c <= x0 /\ x0 <= (1 - mean_q c) / std_q c.

(** Every entry is NaN or a finite value inside the clamp bounds of its
    channel. *)
Definition box_or_nan (d : Tensor3) : Prop :=
  forall c i j, in_shape d c i j ->
    tat d c i j = NaN \/
    exists x, tat d c i j = Fin x /\
              - mean_q c / std_q c <= x /\ x <= (1 - mean_q c) / std_q c.

(** ** Concrete inputs *)

(** A model that refuses an empty input and whose backward pass gives the
    gradient [1] at every entry of the input. *)
Definition net_ones : Net :=
  mkNet (fun x => if Nat.eqb (numel x) 0 then None else Some [x; x; x])
        (fun x _ _ => mkT (d0 x) (d1 x) (d2 x) (fun _ _ _ => Fin 1)).

(** A stub model whose stages all return the input, so backward passes
    the seed through unchanged. *)
Definition net_id : Net := mkNet (fun x => Some [x; x; x]) (fun _ _ seed => seed).

(** [output[layer].backward(torch.zeros_like(output[layer]))]. *)
Definition zero_grad_fn : GradFn :=
  fun output => match nth_error output layer with
                | Some o => Some (layer, tmap (fun _ => Fin 0) o)
                | None => None
                end.

(** Nearest-neighbour resampling. *)
Definition nearest (img : PILImage) (ow oh x y c : nat) : byte :=
  ppix img (x * pw img / ow) (y * ph img / oh) c.

Definition gray_image : PILImage := mkPIL 256 256 (fun _ _ _ => x80).
Definition big_image : PILImage := mkPIL 512 512 (fun _ _ _ => x80).

Definition no_draws : nat -> Z := fun _ => 0%Z.
Definition some_draws : nat -> Z := fun n => Z.of_nat (n * 7 + 3).

Definition st0 : St := mkSt 0 [].

(** A 3 x 1 x 2 working image with entries 1/2 and 3/2. *)
Definition data_3x1x2 : Tensor3 :=
  mkT 3 1 2 (fun _ _ j => Fin (inject_Z (Z.of_nat j) + (1 # 2))).

(** A 1 x 1 x 2 stage output with feature vectors (1) and (2). *)
Definition feat_1x1x2 : Tensor3 :=
  mkT 1 1 2 (fun _ _ j => Fin (inject_Z (Z.of_nat j) + 1)).

(** A 2 x 1 x 2 stage output with the unit feature vectors (1, 0) and
    (0, 1). *)
Definition feat_2x1x2 : Tensor3 :=
  mkT 2 1 2 (fun c _ j => if Nat.eqb c j then Fin 1 else Fin 0).

(** A 1 x 1 x 2 working image with a NaN entry. *)
Definition data_nan : Tensor3 :=
  mkT 1 1 2 (fun _ _ j => if Nat.eqb j 0 then NaN else Fin 1).

(** A 1 x 30 x 30 image, large enough for shifts of up to 20. *)
Definition data_1x30x30 : Tensor3 := mkT 1 30 30 (fun _ i j => Fin (inject_Z (Z.of_nat (i + j)))).

(** * Properties *)

(** ** Constants *)

Lemma std_q_pos (c : nat) : 0 < std_q c.
Proof.
  destruct c as [|[|[|c]]]; unfold std_q; simpl;
    try (destruct c; reflexivity); reflexivity.
Qed.

Lemma mean_q_unit (c : nat) : 0 <= mean_q c /\ mean_q c <= 1.
Proof.
  destruct c as [|[|[|c]]]; unfold mean_q; simpl;
    try (destruct c; split; discriminate); split; discriminate.
Qed.

Lemma Qeq_bool_false (q : Q) : ~ q == 0 -> Qeq_bool q 0 = false.
Proof.
  intro H. destruct (Qeq_bool q 0) eqn:E; [|reflexivity].
  apply Qeq_bool_eq in E. contradiction.
Qed.

Lemma std_q_nz (c : nat) : Qeq_bool (std_q c) 0 = false.
Proof.
  apply Qeq_bool_false. pose proof (std_q_pos c) as H. intro E.
  rewrite E in H. discriminate.
Qed.

Lemma clamp_min_eq (c : nat) : clamp_min c = Fin (- mean_q c / std_q c).
Proof. unfold clamp_min, mean, std; simpl. now rewrite std_q_nz. Qed.

Lemma clamp_max_eq (c : nat) : clamp_max c = Fin ((1 - mean_q c) / std_q c).
Proof. unfold clamp_max, fsub, mean, std; simpl. now rewrite std_q_nz. Qed.

(** ** The monad: running the steps of an iteration *)

Ltac destr_all :=
  repeat (match goal with
          | H : context [match ?x with _ => _ end] |- _ =>
              let E := fresh "E" in destruct x eqn:E; cbn beta iota zeta in *
          end; try discriminate);
  repeat match goal with
         | H : (Some _, _) = (Some _, _) |- _ => inversion H; clear H; subst
         end.

Definition view_ok (t : Tensor3) (v : View) : Prop :=
  (v_top v + v_h v <= d1 t)%nat /\ (v_left v + v_w v <= d2 t)%nat.

Lemma py_slice_ok (n a b : nat) :
  (fst (py_slice n a b) + snd (py_slice n a b) <= n)%nat.
Proof. unfold py_slice; simpl; lia. Qed.

Lemma slice_view_ok (t : Tensor3) (a b c d : Z) :
  view_ok t (slice_view t a b c d).
Proof.
  unfold slice_view, view_ok.
  pose proof (py_slice_ok (d1 t) (Z.to_nat a) (Z.to_nat b)) as H1.
  pose proof (py_slice_ok (d2 t) (Z.to_nat c) (Z.to_nat d)) as H2.
  destruct (py_slice (d1 t) _ _), (py_slice (d2 t) _ _); simpl in *; lia.
Qed.

Lemma full_view_ok (t : Tensor3) : view_ok t (full_view t).
Proof. unfold view_ok, full_view; simpl; lia. Qed.

Lemma random_shift_run (draws : nat -> Z) (shift : Z) (d : Tensor3) (s : St) :
  exists v, random_shift draws shift d s =
            (Some v, mkSt (4 + rpos s) (trace s)) /\ view_ok d v.
Proof.
  eexists. split; [reflexivity | apply slice_view_ok].
Qed.

Section Iteration.

Variable net : Net.
Variable draws : nat -> Z.
Variable do_random_shifts : bool.
Variable shift : Z.
Variable grad_fn : GradFn.
Variable learning_rate : Q.

(** What a successful gradient computation consists of: a view of the data
    inside its bounds, one forward pass, and the gradient of one backward
    pass scattered back to the full shape. *)
Lemma step_grad_some (d : Tensor3) (s : St) (g : Tensor3) (s' : St) :
  step_grad net draws do_random_shifts shift grad_fn d s = (Some g, s') ->
  exists v l seed,
    view_ok d v /\
    (do_random_shifts = false -> v = full_view d) /\
    (exists output, forward net (slice d v) = Some output /\
                    grad_fn output = Some (l, seed)) /\
    g = unslice d v (vjp net (slice d v) l seed).
Proof.
  intro H. unfold step_grad in H.
  destruct do_random_shifts.
  - destruct (random_shift_run draws shift d s) as [v [Hv Hok]].
    unfold bind at 1 in H. rewrite Hv in H.
    unfold bind, emit, lift, ret, raise in H. destr_all.
    exists v, n, t.
    split; [exact Hok | split; [intro Hc; discriminate Hc | split; [eauto | reflexivity]]].
  - unfold bind, emit, lift, ret, raise in H. destr_all.
    exists (full_view d), n, t.
    split; [apply full_view_ok | split; [reflexivity | split; [eauto | reflexivity]]].
Qed.

Lemma step_grad_shape (d : Tensor3) (s : St) (g : Tensor3) (s' : St) :
  step_grad net draws do_random_shifts shift grad_fn d s = (Some g, s') ->
  shape g = shape d.
Proof.
  intro H. destruct (step_grad_some d s g s' H) as [v [l [seed [_ [_ [_ ->]]]]]].
  reflexivity.
Qed.

Lemma dream_iter_some (d : Tensor3) (s : St) (d' : Tensor3) (s' : St) :
  dream_iter net draws do_random_shifts shift grad_fn learning_rate d s
    = (Some d', s') ->
  exists g, step_grad net draws do_random_shifts shift grad_fn d s = (Some g, s')
            /\ d' = sgd_update learning_rate d g.
Proof.
  unfold dream_iter, bind, ret.
  destruct (step_grad net draws do_random_shifts shift grad_fn d s)
    as [[g|] s0]; intro H; inversion H; subst; eauto.
Qed.

Lemma dream_iter_shape (d : Tensor3) (s : St) (d' : Tensor3) (s' : St) :
  dream_iter net draws do_random_shifts shift grad_fn learning_rate d s
    = (Some d', s') ->
  shape d' = shape d.
Proof.
  intro H. destruct (dream_iter_some d s d' s' H) as [g [_ ->]]. reflexivity.
Qed.

Lemma dream_loop_shape (n : nat) (d : Tensor3) (s : St) (d' : Tensor3) (s' : St) :
  dream_loop net draws do_random_shifts shift grad_fn learning_rate n d s
    = (Some d', s') ->
  shape d' = shape d.
Proof.
  revert d s. induction n as [|n IH]; intros d s H; simpl in H.
  - inversion H; reflexivity.
  - unfold bind at 1 in H.
    destruct (dream_iter net draws do_random_shifts shift grad_fn learning_rate d s)
      as [[d1|] s1] eqn:E; [|discriminate].
    rewrite (IH d1 s1 H). exact (dream_iter_shape d s d1 s1 E).
Qed.

End Iteration.

(** ** Values *)

Lemma fmaximum_fin (a b : Q) : fmaximum (Fin a) (Fin b) = Fin (Qmax a b).
Proof.
  unfold fmaximum, Qmax, GenericMinMax.gmax; simpl.
  destruct (Qle_bool b a) eqn:E; simpl.
  - apply Qle_bool_iff in E. destruct (a ?= b) eqn:C; try reflexivity.
    apply Qlt_alt in C. exfalso. apply (Qlt_not_le a b); assumption.
  - destruct (a ?= b) eqn:C; try reflexivity; exfalso.
    + apply Qeq_alt in C. rewrite C in E.
      rewrite (proj2 (Qle_bool_iff b b) (Qle_refl b)) in E. discriminate.
    + apply Qgt_alt in C. apply Qlt_le_weak in C.
      rewrite (proj2 (Qle_bool_iff b a) C) in E. discriminate.
Qed.

Lemma fminimum_fin (a b : Q) : fminimum (Fin a) (Fin b) = Fin (Qmin a b).
Proof.
  unfold fminimum, Qmin, GenericMinMax.gmin; simpl.
  destruct (Qle_bool a b) eqn:E; simpl.
  - apply Qle_bool_iff in E. destruct (a ?= b) eqn:C; try reflexivity.
    apply Qgt_alt in C. exfalso. apply (Qlt_not_le b a); assumption.
  - destruct (a ?= b) eqn:C; try reflexivity; exfalso.
    + apply Qeq_alt in C. rewrite C in E.
      rewrite (proj2 (Qle_bool_iff b b) (Qle_refl b)) in E. discriminate.
    + apply Qlt_alt in C. apply Qlt_le_weak in C.
      rewrite (proj2 (Qle_bool_iff a b) C) in E. discriminate.
Qed.

Lemma fdiv_fin (a b : Q) : ~ b == 0 -> fdiv (Fin a) (Fin b) = Fin (a / b).
Proof. intro H. unfold fdiv. now rewrite Qeq_bool_false. Qed.

Lemma sgd_update_at (lr : Q) (d g : Tensor3) (c i j : nat) (x y q : Q) :
  tat d c i j = Fin x -> tat g c i j = Fin y ->
  tmean (tmap fabs g) = Fin q -> ~ q == 0 ->
  tat (sgd_update lr d g) c i j
  = Fin (Qmin (Qmax (x + y * lr / q) (- mean_q c / std_q c))
              ((1 - mean_q c) / std_q c)).
Proof.
  intros Hd Hg Hq Hnz. unfold sgd_update. cbn zeta. rewrite Hq.
  cbn [tat tchan_op tzip tmap]. rewrite Hd, Hg. cbn [fmul].
  rewrite (fdiv_fin _ _ Hnz). cbn [fadd].
  rewrite clamp_min_eq, fmaximum_fin, clamp_max_eq, fminimum_fin.
  reflexivity.
Qed.

Lemma step_grad_noshift_indep (net : Net) (dr1 dr2 : nat -> Z) (sh1 sh2 : Z)
  (grad_fn : GradFn) (d : Tensor3) (s1 s2 : St) :
  fst (step_grad net dr1 false sh1 grad_fn d s1)
  = fst (step_grad net dr2 false sh2 grad_fn d s2).
Proof.
  unfold step_grad, bind, ret, emit, lift, raise; cbn.
  destruct (forward net (slice d (full_view d))) as [out|]; cbn; [|reflexivity].
  destruct (grad_fn out) as [[l seed]|]; cbn; [|reflexivity].
  destruct (nth_error out l); cbn; [|reflexivity].
  destruct (_ && _); reflexivity.
Qed.

Lemma dream_loop_noshift_indep (net : Net) (dr1 dr2 : nat -> Z) (sh1 sh2 : Z)
  (grad_fn : GradFn) (lr : Q) (n : nat) (d : Tensor3) (s1 s2 : St) :
  fst (dream_loop net dr1 false sh1 grad_fn lr n d s1)
  = fst (dream_loop net dr2 false sh2 grad_fn lr n d s2).
Proof.
  revert d s1 s2. induction n as [|n IH]; intros d s1 s2; [reflexivity|].
  simpl. unfold dream_iter, bind, ret.
  pose proof (step_grad_noshift_indep net dr1 dr2 sh1 sh2 grad_fn d s1 s2) as H.
  destruct (step_grad net dr1 false sh1 grad_fn d s1) as [[g1|] t1],
           (step_grad net dr2 false sh2 grad_fn d s2) as [[g2|] t2];
    simpl in H; try discriminate; [|reflexivity].
  inversion H; subst. apply IH.
Qed.

(** ** Zero gradients and NaN *)

Lemma sum_range_zero (n : nat) (f : nat -> fval) :
  (forall k, (k < n)%nat -> exists q, f k = Fin q /\ q == 0) ->
  exists q, sum_range n f = Fin q /\ q == 0.
Proof.
  induction n as [|n IH]; intro H.
  - exists 0. split; reflexivity.
  - destruct IH as [q [E Hq]]; [intros k Hk; apply H; lia|].
    destruct (H n) as [r [Er Hr]]; [lia|].
    simpl. rewrite E, Er. exists (q + r). split; [reflexivity|].
    rewrite Hq, Hr. reflexivity.
Qed.

Lemma tsum_zero (t : Tensor3) : all_zero t -> exists q, tsum t = Fin q /\ q == 0.
Proof.
  intro H. unfold tsum. apply sum_range_zero. intros c Hc.
  apply sum_range_zero. intros i Hi. apply sum_range_zero. intros j Hj.
  apply H. unfold in_shape; auto.
Qed.

Lemma abs_all_zero (g : Tensor3) : all_zero g -> all_zero (tmap fabs g).
Proof.
  intros H c i j Hin. destruct (H c i j Hin) as [q [E Hq]].
  cbn [tmap tat]. rewrite E. exists (Qabs q). split; [reflexivity|].
  rewrite Hq. reflexivity.
Qed.

Lemma tmean_abs_zero (g : Tensor3) :
  all_zero g ->
  tmean (tmap fabs g) = NaN \/
  exists q, tmean (tmap fabs g) = Fin q /\ q == 0.
Proof.
  intro H. destruct (tsum_zero _ (abs_all_zero g H)) as [q [E Hq]].
  unfold tmean. rewrite E. unfold fdiv.
  destruct (Qeq_bool _ 0).
  - left. apply Qeq_alt in Hq. rewrite Hq. reflexivity.
  - right. eexists. split; [reflexivity|]. rewrite Hq. reflexivity.
Qed.

Lemma fadd_nan_r (a : fval) : fadd a NaN = NaN.
Proof. destruct a; reflexivity. Qed.

Lemma fmaximum_nan_l (a : fval) : fmaximum NaN a = NaN.
Proof. reflexivity. Qed.

Lemma fminimum_nan_l (a : fval) : fminimum NaN a = NaN.
Proof. reflexivity. Qed.

(** With an all-zero gradient, [grad_mean] is 0 and every entry of the
    update is [0 * learning_rate / 0 = NaN]: no error, all NaN. *)
Lemma sgd_update_zero_grad (lr : Q) (d g : Tensor3) :
  shape g = shape d -> all_zero g -> all_nan (sgd_update lr d g).
Proof.
  intros Hs Hz c i j Hin. unfold sgd_update. cbn zeta.
  cbn [tat tchan_op tzip tmap] in *.
  assert (Hin' : in_shape g c i j).
  { unfold shape in Hs. injection Hs as H0 H1 H2. unfold in_shape in *.
    cbn [d0 d1 d2 tchan_op tzip] in Hin. rewrite H0, H1, H2. exact Hin. }
  destruct (Hz c i j Hin') as [y [Ey Hy]]. rewrite Ey.
  assert (Hdiv : fdiv (fmul (Fin y) (Fin lr)) (tmean (tmap fabs g)) = NaN).
  { destruct (tmean_abs_zero g Hz) as [-> | [q [-> Hq]]]; [reflexivity|].
    cbn [fmul fdiv]. rewrite (proj2 (Qeq_bool_iff q 0) Hq).
    assert (Hyl : y * lr == 0) by (rewrite Hy; apply Qmult_0_l).
    apply Qeq_alt in Hyl. rewrite Hyl. reflexivity. }
  rewrite Hdiv, fadd_nan_r. reflexivity.
Qed.

Lemma sgd_update_nan (lr : Q) (d g : Tensor3) :
  all_nan d -> all_nan (sgd_update lr d g).
Proof.
  intros Hn c i j Hin. unfold sgd_update. cbn zeta.
  cbn [tat tchan_op tzip tmap]. rewrite (Hn c i j Hin). reflexivity.
Qed.

Lemma output_nan (d : Tensor3) :
  all_nan d -> all_nan (permute120 (tmap (fclamp 0 1) (unnormalize d))).
Proof.
  intros Hn a b c Hin. unfold in_shape in Hin. cbn in Hin |- *.
  rewrite (Hn c a b); [reflexivity|]. unfold in_shape; tauto.
Qed.

Lemma dream_loop_nan (net : Net) (draws : nat -> Z) (flag : bool) (shift : Z)
  (grad_fn : GradFn) (lr : Q) (n : nat) (d : Tensor3) (s : St)
  (d' : Tensor3) (s' : St) :
  all_nan d ->
  dream_loop net draws flag shift grad_fn lr n d s = (Some d', s') ->
  all_nan d'.
Proof.
  revert d s. induction n as [|n IH]; intros d s Hn H; simpl in H.
  - inversion H; subst; exact Hn.
  - unfold bind at 1 in H.
    destruct (dream_iter net draws flag shift grad_fn lr d s) as [[d1|] s1] eqn:E;
      [|discriminate].
    apply (IH d1 s1); [|exact H].
    destruct (dream_iter_some _ _ _ _ _ _ d s d1 s1 E) as [g [_ ->]].
    apply sgd_update_nan, Hn.
Qed.

(** The first iteration's gradient is all zero: every entry of the
    returned image is NaN. *)
Lemma zero_grad_first_nan
  (resample : PILImage -> nat -> nat -> nat -> nat -> nat -> byte)
  (net : Net) (draws : nat -> Z) (flag : bool) (shift : Z)
  (grad_fn : GradFn) (lr : Q) (img : PILImage) (n_iter : Z) (s : St)
  (out : Tensor3) (s' : St) :
  (1 <= n_iter)%Z ->
  (forall g s1, step_grad net draws flag shift grad_fn (img_transform resample img) s
                = (Some g, s1) -> all_zero g) ->
  dream resample net draws flag shift grad_fn lr img n_iter s = (Some out, s') ->
  all_nan out.
Proof.
  intros Hn Hz H. unfold dream, bind, ret in H.
  destruct (Z.to_nat n_iter) as [|m] eqn:En; [lia|].
  destruct (dream_loop net draws flag shift grad_fn lr (S m)
              (img_transform resample img) s) as [[d'|] t] eqn:E; [|discriminate].
  inversion H; subst. apply output_nan.
  simpl in E. unfold bind at 1 in E.
  destruct (dream_iter net draws flag shift grad_fn lr (img_transform resample img) s)
    as [[d1|] s1] eqn:Ei; [|discriminate].
  apply (dream_loop_nan net draws flag shift grad_fn lr m d1 s1 d' s'); [|exact E].
  destruct (dream_iter_some _ _ _ _ _ _ _ s d1 s1 Ei) as [g [Hg ->]].
  apply sgd_update_zero_grad.
  - exact (step_grad_shape _ _ _ _ _ _ s g s1 Hg).
  - exact (Hz g s1 Hg).
Qed.

(** The objective [zero_grad_fn] on the stub model gives all-zero
    gradients. *)
Lemma zero_grad_fn_step_zero (draws : nat -> Z) (flag : bool) (shift : Z)
  (d : Tensor3) (s : St) (g : Tensor3) (s' : St) :
  step_grad net_id draws flag shift zero_grad_fn d s = (Some g, s') ->
  all_zero g.
Proof.
  intro H. destruct (step_grad_some _ _ _ _ _ d s g s' H)
    as [v [l [seed [_ [_ [[out [Hf Hg]] ->]]]]]].
  cbn [forward net_id] in Hf. injection Hf as <-.
  unfold zero_grad_fn in Hg. cbn in Hg. injection Hg as <- <-.
  intros c i j _. cbn. destruct (inside v i j); eexists; split; reflexivity.
Qed.

Lemma dream_shape
  (resample : PILImage -> nat -> nat -> nat -> nat -> nat -> byte)
  (net : Net) (draws : nat -> Z) (flag : bool) (shift : Z)
  (grad_fn : GradFn) (lr : Q) (img : PILImage) (n_iter : Z) (s : St)
  (out : Tensor3) (s' : St) :
  dream resample net draws flag shift grad_fn lr img n_iter s = (Some out, s') ->
  shape out = (d1 (img_transform resample img), d2 (img_transform resample img),
               d0 (img_transform resample img)).
Proof.
  intro H. unfold dream, bind, ret in H.
  destruct (dream_loop net draws flag shift grad_fn lr
              (Z.to_nat n_iter) (img_transform resample img) s)
    as [[d'|] t] eqn:E; [|discriminate].
  inversion H; subst.
  apply dream_loop_shape in E. unfold shape in E |- *.
  change ((d1 d', d2 d', d0 d') =
          (d1 (img_transform resample img), d2 (img_transform resample img),
           d0 (img_transform resample img))).
  injection E as H0 H1 H2. rewrite H0, H1, H2. reflexivity.
Qed.

Lemma fclamp01_range (v : fval) : in_unit (fclamp 0 1 v) \/ fclamp 0 1 v = NaN.
Proof.
  destruct v as [q| | |]; [left | right; reflexivity | left | left];
    unfold fclamp; try (vm_compute; split; discriminate).
  rewrite fmaximum_fin, fminimum_fin. simpl. split.
  - apply Q.min_glb; [apply Q.le_max_r | discriminate].
  - apply Q.le_min_r.
Qed.

(** Objectives that back-propagate a seed of the stage's shape at stage 2
    never fail on the stub model. *)
Definition seeds_stage2 (grad_fn : GradFn) : Prop :=
  forall x, exists seed, grad_fn [x; x; x] = Some (2%nat, seed) /\
                         shape seed = shape x.

Lemma default_grad_fn_stage2 : seeds_stage2 default_grad_fn.
Proof. intro x. exists x. split; reflexivity. Qed.

Lemma zero_grad_fn_stage2 : seeds_stage2 zero_grad_fn.
Proof. intro x. eexists. split; reflexivity. Qed.

Lemma net_id_step_some (draws : nat -> Z) (shift : Z) (grad_fn : GradFn)
  (d : Tensor3) (s : St) :
  seeds_stage2 grad_fn ->
  exists g s', step_grad net_id draws false shift grad_fn d s = (Some g, s').
Proof.
  intro Hg. destruct (Hg (slice d (full_view d))) as [seed [E Hs]].
  unfold step_grad. cbv [bind ret emit lift raise forward net_id].
  cbn beta iota zeta. rewrite E. cbn beta iota zeta.
  unfold shape in Hs. injection Hs as H0 H1 H2.
  simpl. rewrite H0, H1, H2, !Nat.eqb_refl. simpl. eauto.
Qed.

Lemma net_id_dream_some
  (resample : PILImage -> nat -> nat -> nat -> nat -> nat -> byte)
  (draws : nat -> Z) (shift : Z) (grad_fn : GradFn) (lr : Q)
  (img : PILImage) (n_iter : Z) (s : St) :
  seeds_stage2 grad_fn ->
  exists out s',
    dream resample net_id draws false shift grad_fn lr img n_iter s = (Some out, s').
Proof.
  intro Hg. unfold dream, bind, ret.
  assert (Hl : forall n d s, exists d' s',
            dream_loop net_id draws false shift grad_fn lr n d s = (Some d', s')).
  { induction n as [|n IH]; intros d s0; [exists d, s0; reflexivity|].
    destruct (net_id_step_some draws shift grad_fn d s0 Hg) as [g [s1 Hs]].
    assert (Hi : dream_iter net_id draws false shift grad_fn lr d s0
                 = (Some (sgd_update lr d g), s1))
      by (unfold dream_iter, bind; rewrite Hs; reflexivity).
    cbn [dream_loop]. unfold bind. rewrite Hi. apply IH. }
  destruct (Hl (Z.to_nat n_iter) (img_transform resample img) s) as [d' [s' ->]].
  eauto.
Qed.

(** ** The trace only grows *)

Definition grows {A} (m : M A) : Prop :=
  forall s r s', m s = (r, s') -> exists evs, trace s' = trace s ++ evs.

Lemma grows_ret {A} (a : A) : grows (ret a).
Proof. intros s r s' H. inversion H. exists []. now rewrite app_nil_r. Qed.

Lemma grows_raise {A} : grows (@raise A).
Proof. intros s r s' H. inversion H. exists []. now rewrite app_nil_r. Qed.

Lemma grows_lift {A} (o : option A) : grows (lift o).
Proof. destruct o; [apply grows_ret | apply grows_raise]. Qed.

Lemma grows_emit (e : event) : grows (emit e).
Proof. intros s r s' H. inversion H. exists [e]. reflexivity. Qed.

Lemma grows_bind {A B} (m : M A) (f : A -> M B) :
  grows m -> (forall a, grows (f a)) -> grows (bind m f).
Proof.
  intros Hm Hf s r s' H. unfold bind in H.
  destruct (m s) as [[a|] s1] eqn:E.
  - destruct (Hm s _ s1 E) as [e1 H1]. destruct (Hf a s1 r s' H) as [e2 H2].
    exists (e1 ++ e2). rewrite H2, H1, app_assoc. reflexivity.
  - inversion H; subst. exact (Hm s _ s' E).
Qed.

Lemma grows_random_shift (draws : nat -> Z) (shift : Z) (d : Tensor3) :
  grows (random_shift draws shift d).
Proof.
  intros s r s' H. destruct (random_shift_run draws shift d s) as [v [E _]].
  rewrite E in H. inversion H; subst. exists []. simpl. now rewrite app_nil_r.
Qed.

Create HintDb grows.
#[local] Hint Resolve grows_ret grows_raise grows_lift grows_emit grows_bind
  grows_random_shift : grows.

Lemma bind_emit_first {A} (e : event) (k : M A) (s : St) r s' :
  grows k -> bind (emit e) (fun _ => k) s = (r, s') ->
  exists evs, trace s' = trace s ++ e :: evs.
Proof.
  intros Hk H. unfold bind, emit in H.
  destruct (Hk _ _ _ H) as [evs Hevs]. cbn in Hevs.
  exists evs. rewrite Hevs, <- app_assoc. reflexivity.
Qed.

Lemma step_grad_forward_first (net : Net) (draws : nat -> Z) (flag : bool)
  (shift : Z) (grad_fn : GradFn) (d : Tensor3) (s : St) r s' :
  step_grad net draws flag shift grad_fn d s = (r, s') ->
  exists evs, trace s' = trace s ++ EvForward :: evs.
Proof.
  intro H.
  assert (Hv : exists v s1,
             (if flag then random_shift draws shift d else ret (full_view d)) s
               = (Some v, s1) /\ trace s1 = trace s).
  { destruct flag.
    - destruct (random_shift_run draws shift d s) as [v [E _]].
      exists v, (mkSt (4 + rpos s) (trace s)). split; [exact E | reflexivity].
    - exists (full_view d), s. split; reflexivity. }
  destruct Hv as [v [s1 [Ev Ht]]].
  unfold step_grad in H. unfold bind at 1 in H. rewrite Ev in H.
  cbn beta in H. rewrite <- Ht.
  apply bind_emit_first in H; [exact H|].
  apply grows_bind; [auto with grows | intro out].
  apply grows_bind; [auto with grows | intros _].
  apply grows_bind; [auto with grows | intros [l seed]].
  apply grows_bind; [auto with grows | intro o].
  destruct (_ && _); auto with grows.
Qed.

Definition starts_with {A} (e : event) (m : M A) : Prop :=
  forall s r s', m s = (r, s') -> exists evs, trace s' = trace s ++ e :: evs.

Lemma starts_with_bind {A B} (e : event) (m : M A) (f : A -> M B) :
  starts_with e m -> (forall a, grows (f a)) -> starts_with e (bind m f).
Proof.
  intros Hm Hf s r s' H. unfold bind in H.
  destruct (m s) as [[a|] s1] eqn:E.
  - destruct (Hm s _ s1 E) as [e1 H1]. destruct (Hf a s1 r s' H) as [e2 H2].
    exists (e1 ++ e2). rewrite H2, H1, <- app_assoc. reflexivity.
  - inversion H; subst. exact (Hm s _ s' E).
Qed.

Lemma dream_loop_grows (net : Net) (draws : nat -> Z) (flag : bool) (shift : Z)
  (grad_fn : GradFn) (lr : Q) (n : nat) (d : Tensor3) :
  grows (dream_loop net draws flag shift grad_fn lr n d).
Proof.
  revert d. induction n as [|n IH]; intro d; [apply grows_ret|].
  simpl. apply grows_bind; [|exact IH].
  unfold dream_iter. apply grows_bind; [|auto with grows].
  intros s r s' H. destruct (step_grad_forward_first _ _ _ _ _ _ _ _ _ H) as [evs E].
  eauto.
Qed.

(** With at least one iteration, the first thing [dream] does is a forward
    pass of the model, whatever the learning rate. *)
Lemma dream_forward_first
  (resample : PILImage -> nat -> nat -> nat -> nat -> nat -> byte)
  (net : Net) (draws : nat -> Z) (flag : bool) (shift : Z)
  (grad_fn : GradFn) (lr : Q) (img : PILImage) (n_iter : Z) :
  (1 <= n_iter)%Z ->
  starts_with EvForward (dream resample net draws flag shift grad_fn lr img n_iter).
Proof.
  intro Hn. unfold dream. destruct (Z.to_nat n_iter) as [|m] eqn:En; [lia|].
  apply starts_with_bind; [|auto with grows].
  simpl. apply starts_with_bind; [|intro; apply dream_loop_grows].
  unfold dream_iter. apply starts_with_bind; [|auto with grows].
  intros s r s' H. exact (step_grad_forward_first _ _ _ _ _ _ _ _ _ H).
Qed.

(** [Resize(256)] sets the dimensions given by [resize_dims]. *)
Lemma resize_256_dims
  (resample : PILImage -> nat -> nat -> nat -> nat -> nat -> byte) (img : PILImage) :
  (pw (resize resample img 256), ph (resize resample img 256))
  = resize_dims (pw img) (ph img) 256.
Proof.
  unfold resize, resize_dims.
  destruct (_ || _); [reflexivity|].
  destruct (Nat.ltb (pw img) (ph img)); reflexivity.
Qed.

(** ** Learning rate 0 *)

Lemma sum_range_nonneg (n : nat) (f : nat -> fval) :
  (forall k, (k < n)%nat -> exists q, f k = Fin q /\ 0 <= q) ->
  exists S, sum_range n f = Fin S /\ 0 <= S /\
            forall k q, (k < n)%nat -> f k = Fin q -> q <= S.
Proof.
  induction n as [|n IH]; intro H.
  - exists 0. split; [reflexivity|]. split; [apply Qle_refl|]. intros k q Hk; lia.
  - destruct IH as [S [E [HS Hb]]]; [intros k Hk; apply H; lia|].
    destruct (H n) as [r [Er Hr]]; [lia|].
    exists (S + r). simpl. rewrite E, Er. split; [reflexivity|]. split; [lra|].
    intros k q Hk Hq. destruct (Nat.eq_dec k n) as [->|Hne].
    + rewrite Er in Hq. injection Hq as <-. lra.
    + pose proof (Hb k q ltac:(lia) Hq). lra.
Qed.

Lemma tsum_nonneg (t : Tensor3) :
  (forall c i j, in_shape t c i j -> exists q, tat t c i j = Fin q /\ 0 <= q) ->
  exists S, tsum t = Fin S /\
            forall c i j q, in_shape t c i j -> tat t c i j = Fin q -> q <= S.
Proof.
  intro H. unfold tsum.
  assert (Hrow : forall c i, (c < d0 t)%nat -> (i < d1 t)%nat ->
            exists S, sum_range (d2 t) (fun j => tat t c i j) = Fin S /\ 0 <= S /\
              forall j q, (j < d2 t)%nat -> tat t c i j = Fin q -> q <= S).
  { intros c i Hc Hi. apply sum_range_nonneg. intros j Hj. apply H.
    unfold in_shape; auto. }
  assert (Hpl : forall c, (c < d0 t)%nat ->
            exists S, sum_range (d1 t) (fun i => sum_range (d2 t) (fun j => tat t c i j))
                      = Fin S /\ 0 <= S /\
              forall i j q, (i < d1 t)%nat -> (j < d2 t)%nat ->
                            tat t c i j = Fin q -> q <= S).
  { intros c Hc.
    destruct (sum_range_nonneg (d1 t) (fun i => sum_range (d2 t) (fun j => tat t c i j)))
      as [S [E [HS Hb]]].
    { intros i Hi. destruct (Hrow c i Hc Hi) as [S [E [HS _]]]. eauto. }
    exists S. split; [exact E|]. split; [exact HS|].
    intros i j q Hi Hj Hq. destruct (Hrow c i Hc Hi) as [R [ER [_ HR]]].
    pose proof (HR j q Hj Hq). pose proof (Hb i R Hi ER). lra. }
  destruct (sum_range_nonneg (d0 t)
              (fun c => sum_range (d1 t) (fun i => sum_range (d2 t) (fun j => tat t c i j))))
    as [S [E [_ Hb]]].
  { intros c Hc. destruct (Hpl c Hc) as [S [E [HS _]]]. eauto. }
  exists S. split; [exact E|].
  intros c i j q [Hc [Hi Hj]] Hq. destruct (Hpl c Hc) as [R [ER [_ HR]]].
  pose proof (HR i j q Hi Hj Hq). pose proof (Hb c R Hc ER). lra.
Qed.

Lemma un_mean_eq (c : nat) : un_mean c = Fin (- mean_q c / std_q c).
Proof. unfold un_mean, mean, std; simpl. now rewrite std_q_nz. Qed.

Lemma un_std_eq (c : nat) : un_std c = Fin (1 / std_q c).
Proof. unfold un_std, std; simpl. now rewrite std_q_nz. Qed.

Lemma inv_std_pos (c : nat) : 0 < 1 / std_q c.
Proof.
  unfold Qdiv. rewrite Qmult_1_l. apply Qinv_lt_0_compat, std_q_pos.
Qed.

Lemma div_std_le (c : nat) (a b : Q) : a <= b -> a / std_q c <= b / std_q c.
Proof.
  intro H. unfold Qdiv. apply Qmult_le_compat_r; [exact H|].
  apply Qlt_le_weak, Qinv_lt_0_compat, std_q_pos.
Qed.

(** The entries of the preprocessed image: a byte scaled to [[0, 1]] and
    normalised, hence inside the clamp bounds of its channel. *)
Lemma img_transform_at
  (resample : PILImage -> nat -> nat -> nat -> nat -> nat -> byte)
  (img : PILImage) (c i j : nat) :
  exists x0, tat (img_transform resample img) c i j = Fin x0 /\
             - mean_q c / std_q c <= x0 /\ x0 <= (1 - mean_q c) / std_q c.
Proof.
  set (k := Byte.to_nat (ppix (resize resample img 256) j i c)).
  assert (Hk : (0 <= Z.of_nat k <= 255)%Z).
  { pose proof (Byte.to_nat_bounded (ppix (resize resample img 256) j i c)). lia. }
  set (p := inject_Z (Z.of_nat k) / 255).
  assert (Hp : 0 <= p /\ p <= 1).
  { destruct Hk as [Hk0 Hk1]. rewrite Zle_Qle in Hk0, Hk1.
    unfold p. change (inject_Z 0) with 0 in Hk0.
    change (inject_Z 255) with 255 in Hk1. split.
    - apply Qle_shift_div_l; [reflexivity | lra].
    - apply Qle_shift_div_r; [reflexivity | lra]. }
  exists ((p + - mean_q c) / std_q c).
  split.
  - unfold img_transform, normalize, to_tensor, tchan_op, fsub, mean, std.
    cbn [tat fneg fadd]. apply fdiv_fin. intro E.
    pose proof (std_q_pos c) as H. rewrite E in H. discriminate.
  - destruct Hp as [Hp0 Hp1]. split; apply div_std_le; lra.
Qed.

Lemma inside_iff (v : View) (i j : nat) :
  inside v i j = true <->
  (v_top v <= i < v_top v + v_h v)%nat /\ (v_left v <= j < v_left v + v_w v)%nat.
Proof.
  unfold inside. rewrite !andb_true_iff, !Nat.leb_le, !Nat.ltb_lt. tauto.
Qed.

Lemma Qabs_pos_nz (y : Q) : ~ y == 0 -> 0 < Qabs y.
Proof.
  intro Hy. destruct (Qlt_le_dec 0 (Qabs y)) as [H|H]; [exact H|].
  exfalso. apply Hy. apply Qabs_Qle_condition in H. destruct H. lra.
Qed.

Section RateZero.

Variable net : Net.
Variable draws : nat -> Z.
Variable do_random_shifts : bool.
Variable shift : Z.
Variable grad_fn : GradFn.

(** The model refuses an empty input, its gradients are finite, and the
    gradient of a non-empty input is not zero everywhere. *)
Hypothesis forward_empty : forall x, numel x = 0%nat -> forward net x = None.
Hypothesis vjp_fin : forall x l seed c i j,
  in_shape x c i j -> is_fin (tat (vjp net x l seed) c i j).
Hypothesis vjp_nz : forall x l seed, numel x <> 0%nat ->
  exists c i j, in_shape x c i j /\ ~ feq (tat (vjp net x l seed) c i j) (Fin 0).

Lemma step_grad_fin_pos (d : Tensor3) (s : St) (g : Tensor3) (s1 : St) :
  step_grad net draws do_random_shifts shift grad_fn d s = (Some g, s1) ->
  (forall c i j, in_shape d c i j -> exists y, tat g c i j = Fin y) /\
  exists q, tmean (tmap fabs g) = Fin q /\ 0 < q.
Proof.
  intro H.
  destruct (step_grad_some net draws do_random_shifts shift grad_fn d s g s1 H)
    as [v [l [seed [[Hv1 Hv2] [_ [[output [Hout _]] ->]]]]]].
  set (x := slice d v) in *.
  assert (Hfin : forall c i j, in_shape d c i j ->
            exists y, tat (unslice d v (vjp net x l seed)) c i j = Fin y).
  { intros c i j Hin. cbn [tat unslice].
    destruct (inside v i j) eqn:Ei; [|eauto].
    apply inside_iff in Ei. destruct Hin as [Hc _].
    assert (Hx : in_shape x c (i - v_top v)%nat (j - v_left v)%nat).
    { unfold x, in_shape, slice; cbn; lia. }
    pose proof (vjp_fin x l seed _ _ _ Hx) as Hf.
    destruct (tat (vjp net x l seed) c (i - v_top v)%nat (j - v_left v)%nat);
      [eauto | contradiction..]. }
  split; [exact Hfin|].
  assert (Hne : numel x <> 0%nat).
  { intro E. rewrite (forward_empty x E) in Hout. discriminate. }
  destruct (vjp_nz x l seed Hne) as [c [i [j [Hin Hz]]]].
  pose proof Hin as [Hc [Hi Hj]]. cbn [x slice d0 d1 d2] in Hc, Hi, Hj.
  set (g := unslice d v (vjp net x l seed)).
  assert (Hg : tat g c (i + v_top v)%nat (j + v_left v)%nat = tat (vjp net x l seed) c i j).
  { unfold g. cbn [tat unslice].
    replace (inside v (i + v_top v)%nat (j + v_left v)%nat) with true
      by (symmetry; apply inside_iff; lia).
    now rewrite !Nat.add_sub. }
  pose proof (vjp_fin x l seed _ _ _ Hin) as Hf.
  destruct (tat (vjp net x l seed) c i j) as [y| | |] eqn:Ey;
    [|contradiction..].
  cbn [feq] in Hz.
  destruct (tsum_nonneg (tmap fabs g)) as [S [ES HS]].
  { intros c' i' j' Hin'. destruct (Hfin c' i' j' Hin') as [y' Ey'].
    exists (Qabs y'). cbn [tat tmap]. fold g in Ey'. rewrite Ey'.
    split; [reflexivity | apply Qabs_nonneg]. }
  assert (Hy : Qabs y <= S).
  { apply (HS c (i + v_top v)%nat (j + v_left v)%nat).
    - unfold in_shape, g; cbn; lia.
    - cbn [tat tmap]. rewrite Hg. reflexivity. }
  pose proof (Qabs_pos_nz y Hz) as Hpos.
  set (N := inject_Z (Z.of_nat (numel (tmap fabs g)))).
  assert (HN : 0 < N).
  { unfold N, numel, g; cbn [d0 d1 d2 tmap unslice].
    change 0 with (inject_Z 0). rewrite <- Zlt_Qlt.
    assert (0 < d0 d * d1 d * d2 d)%nat by (apply Nat.mul_pos_pos;
      [apply Nat.mul_pos_pos|]; lia). lia. }
  exists (S / N). split.
  - unfold tmean. rewrite ES. fold N. apply fdiv_fin.
    intro E. rewrite E in HN. discriminate.
  - apply Qlt_shift_div_l; [exact HN|]. rewrite Qmult_0_l. lra.
Qed.

End RateZero.

Section RateZeroMean.

Variable net : Net.
Variable draws : nat -> Z.
Variable do_random_shifts : bool.
Variable shift : Z.
Variable grad_fn : GradFn.

(** Every gradient a step computes is finite on the image and its
    [grad_mean = data.grad.abs().mean()] is a nonzero finite value. *)
Hypothesis step_mean_nz : forall d s g s1,
  step_grad net draws do_random_shifts shift grad_fn d s = (Some g, s1) ->
  (forall c i j, in_shape d c i j -> is_fin (tat g c i j)) /\
  exists q, tmean (tmap fabs g) = Fin q /\ ~ q == 0.

Lemma sgd_update_lr0 (d0 d : Tensor3) (s : St) (g : Tensor3) (s1 : St) :
  in_bounds d0 -> same_values d0 d ->
  step_grad net draws do_random_shifts shift grad_fn d s = (Some g, s1) ->
  same_values d0 (sgd_update 0 d g).
Proof.
  intros Hb [Hsh Hv] H.
  destruct (step_mean_nz d s g s1 H) as [Hg [q [Eq Hqnz]]].
  split; [exact Hsh|].
  intros c i j Hin.
  destruct (Hv c i j Hin) as [x [x0 [Ex [Ex0 Hx]]]].
  assert (Hin' : in_shape d c i j).
  { unfold in_shape, shape in *. injection Hsh as H0 H1 H2. lia. }
  pose proof (Hg c i j Hin') as Hy.
  destruct (tat g c i j) as [y| | |] eqn:Ey; [|contradiction..].
  rewrite (sgd_update_at 0 d g c i j x y q Ex Ey Eq Hqnz).
  destruct (Hb c i j Hin) as [x1 [Ex1 [Hlo Hhi]]].
  rewrite Ex0 in Ex1. injection Ex1 as <-.
  eexists _, x0. split; [reflexivity|]. split; [exact Ex0|].
  assert (E : x + y * 0 / q == x0).
  { rewrite Qmult_0_r. unfold Qdiv. rewrite Qmult_0_l, Qplus_0_r. exact Hx. }
  rewrite E, (Q.max_l _ _ Hlo), (Q.min_l _ _ Hhi). reflexivity.
Qed.

Lemma dream_loop_lr0 (n : nat) (d0 d : Tensor3) (s : St) (d' : Tensor3) (s' : St) :
  in_bounds d0 -> same_values d0 d ->
  dream_loop net draws do_random_shifts shift grad_fn 0 n d s = (Some d', s') ->
  same_values d0 d'.
Proof.
  intros Hb. revert d s. induction n as [|n IH]; intros d s Hv H; simpl in H.
  - inversion H; subst; exact Hv.
  - unfold bind at 1 in H.
    destruct (dream_iter net draws do_random_shifts shift grad_fn 0 d s)
      as [[d1|] t1] eqn:E; [|discriminate].
    destruct (dream_iter_some net draws do_random_shifts shift grad_fn 0 d s d1 t1 E)
      as [g [Hs ->]].
    exact (IH _ _ (sgd_update_lr0 d0 d s g t1 Hb Hv Hs) H).
Qed.

End RateZeroMean.

Lemma img_transform_in_bounds
  (resample : PILImage -> nat -> nat -> nat -> nat -> nat -> byte) (img : PILImage) :
  in_bounds (img_transform resample img).
Proof. intros c i j _. apply img_transform_at. Qed.

Lemma same_values_refl (d : Tensor3) : in_bounds d -> same_values d d.
Proof.
  intro Hb. split; [reflexivity|]. intros c i j Hin.
  destruct (Hb c i j Hin) as [x0 [E _]]. exists x0, x0.
  split; [exact E|]. split; [exact E | apply Qeq_refl].
Qed.

(** Unnormalising and clamping a finite value. *)
Lemma output_entry (c : nat) (x : Q) :
  fclamp 0 1 (fdiv (fsub (Fin x) (un_mean c)) (un_std c))
  = Fin (Qmin (Qmax ((x + - (- mean_q c / std_q c)) / (1 / std_q c)) 0) 1).
Proof.
  unfold fsub. rewrite un_mean_eq, un_std_eq. cbn [fneg fadd].
  rewrite fdiv_fin.
  - unfold fclamp. now rewrite fmaximum_fin, fminimum_fin.
  - intro E. pose proof (inv_std_pos c) as H. rewrite E in H. discriminate.
Qed.

Lemma same_values_output (d0 d : Tensor3) :
  same_values d0 d ->
  shape (permute120 (tmap (fclamp 0 1) (unnormalize d)))
  = shape (permute120 (tmap (fclamp 0 1) (unnormalize d0))) /\
  forall a b c,
    in_shape (permute120 (tmap (fclamp 0 1) (unnormalize d))) a b c ->
    feq (tat (permute120 (tmap (fclamp 0 1) (unnormalize d))) a b c)
        (tat (permute120 (tmap (fclamp 0 1) (unnormalize d0))) a b c).
Proof.
  intros [Hsh Hv]. unfold shape in Hsh. injection Hsh as H0 H1 H2.
  split; [unfold shape; cbn; now rewrite H0, H1, H2|].
  intros a b c Hin. unfold in_shape in Hin. cbn in Hin.
  destruct (Hv c a b) as [x [x0 [Ex [Ex0 Hx]]]]; [unfold in_shape; lia|].
  cbn [permute120 tmap unnormalize tchan_op tat].
  rewrite Ex, Ex0, !output_entry. cbn [feq]. rewrite Hx. reflexivity.
Qed.

Lemma net_ones_step_some (draws : nat -> Z) (shift : Z) (grad_fn : GradFn)
  (d : Tensor3) (s : St) :
  numel d <> 0%nat -> seeds_stage2 grad_fn ->
  exists g s', step_grad net_ones draws false shift grad_fn d s = (Some g, s').
Proof.
  intros Hn Hg. destruct (Hg (slice d (full_view d))) as [seed [E Hs]].
  unfold step_grad. cbv [bind ret emit lift raise forward net_ones].
  cbn beta iota zeta.
  replace (Nat.eqb (numel (slice d (full_view d))) 0) with false
    by (symmetry; apply Nat.eqb_neq; exact Hn).
  rewrite E. cbn beta iota zeta.
  unfold shape in Hs. injection Hs as H0 H1 H2.
  simpl. rewrite H0, H1, H2, !Nat.eqb_refl. simpl. eauto.
Qed.

Lemma net_ones_dream_some
  (resample : PILImage -> nat -> nat -> nat -> nat -> nat -> byte)
  (draws : nat -> Z) (shift : Z) (grad_fn : GradFn) (lr : Q)
  (img : PILImage) (n_iter : Z) (s : St) :
  numel (img_transform resample img) <> 0%nat -> seeds_stage2 grad_fn ->
  exists out s',
    dream resample net_ones draws false shift grad_fn lr img n_iter s = (Some out, s').
Proof.
  intros Hn Hg. unfold dream, bind, ret.
  assert (Hl : forall n d s, numel d <> 0%nat -> exists d' s',
            dream_loop net_ones draws false shift grad_fn lr n d s = (Some d', s')).
  { induction n as [|n IH]; intros d s0 Hd; [exists d, s0; reflexivity|].
    destruct (net_ones_step_some draws shift grad_fn d s0 Hd Hg) as [g [s1 Hs]].
    assert (Hi : dream_iter net_ones draws false shift grad_fn lr d s0
                 = (Some (sgd_update lr d g), s1))
      by (unfold dream_iter, bind; rewrite Hs; reflexivity).
    cbn [dream_loop]. unfold bind. rewrite Hi. apply IH. exact Hd. }
  destruct (Hl (Z.to_nat n_iter) (img_transform resample img) s Hn) as [d' [s' ->]].
  eauto.
Qed.

Lemma net_ones_empty (x : Tensor3) : numel x = 0%nat -> forward net_ones x = None.
Proof. intro E. cbn. now rewrite E. Qed.

Lemma net_ones_fin (x : Tensor3) (l : nat) (seed : Tensor3) (c i j : nat) :
  in_shape x c i j -> is_fin (tat (vjp net_ones x l seed) c i j).
Proof. intros _. exact I. Qed.

Lemma net_ones_nz (x : Tensor3) (l : nat) (seed : Tensor3) :
  numel x <> 0%nat ->
  exists c i j, in_shape x c i j /\ ~ feq (tat (vjp net_ones x l seed) c i j) (Fin 0).
Proof.
  unfold numel. intro Hn. exists 0%nat, 0%nat, 0%nat. split.
  - unfold in_shape. destruct (d0 x), (d1 x), (d2 x); simpl in Hn; lia.
  - cbn. discriminate.
Qed.

Lemma numel_img_transform_gray : numel (img_transform nearest gray_image) <> 0%nat.
Proof.
  unfold numel.
  assert (E0 : d0 (img_transform nearest gray_image) = 3%nat) by (vm_compute; reflexivity).
  assert (E1 : d1 (img_transform nearest gray_image) = 256%nat) by (vm_compute; reflexivity).
  assert (E2 : d2 (img_transform nearest gray_image) = 256%nat) by (vm_compute; reflexivity).
  rewrite E0, E1, E2. lia.
Qed.

(** ** Self-similarity *)

(** * Claims *)

(** C1. Every iteration of the dream loop computes the gradient [g] of
    one backward pass, of the full image shape, and sets every entry to
    [old + g * learning_rate / grad_mean], where [grad_mean] is the mean of
    [|g|] over the whole image, clamped to
    [[-mean/std, (1 - mean)/std]] of its channel; stated for finite
    entries and a nonzero finite [grad_mean]. *)
Theorem dream_iter_update (net : Net) (draws : nat -> Z) (do_random_shifts : bool)
  (shift : Z) (grad_fn : GradFn) (lr : Q) (d : Tensor3) (s : St)
  (d' : Tensor3) (s' : St) :
  dream_iter net draws do_random_shifts shift grad_fn lr d s = (Some d', s') ->
  exists g,
    step_grad net draws do_random_shifts shift grad_fn d s = (Some g, s') /\
    shape g = shape d /\ shape d' = shape d /\
    forall c i j x y q,
      in_shape d c i j -> tat d c i j = Fin x -> tat g c i j = Fin y ->
      tmean (tmap fabs g) = Fin q -> ~ q == 0 ->
      tat d' c i j
      = Fin (Qmin (Qmax (x + y * lr / q) (- mean_q c / std_q c))
                  ((1 - mean_q c) / std_q c)).
Proof.
  intro H. destruct (dream_iter_some _ _ _ _ _ _ d s d' s' H) as [g [Hg ->]].
  exists g. split; [exact Hg|]. split; [exact (step_grad_shape _ _ _ _ _ d s g s' Hg)|].
  split; [reflexivity|].
  intros c i j x y q _ Hx Hy Hq Hnz. apply sgd_update_at; assumption.
Qed.

Lemma dream_iter_update_witness :
  exists d' s',
    dream_iter net_id no_draws false 20 default_grad_fn (1 # 50) data_3x1x2 st0
      = (Some d', s') /\
    exists g,
      step_grad net_id no_draws false 20 default_grad_fn data_3x1x2 st0
        = (Some g, s') /\
      shape g = shape data_3x1x2 /\ shape d' = shape data_3x1x2 /\
      forall c i j x y q,
        in_shape data_3x1x2 c i j -> tat data_3x1x2 c i j = Fin x ->
        tat g c i j = Fin y -> tmean (tmap fabs g) = Fin q -> ~ q == 0 ->
        tat d' c i j
        = Fin (Qmin (Qmax (x + y * (1 # 50) / q) (- mean_q c / std_q c))
                    ((1 - mean_q c) / std_q c)).
Proof.
  destruct (dream_iter net_id no_draws false 20 default_grad_fn (1 # 50)
              data_3x1x2 st0) as [[d'|] s'] eqn:E.
  - exists d', s'. split; [reflexivity|].
    exact (dream_iter_update net_id no_draws false 20 default_grad_fn (1 # 50)
             data_3x1x2 st0 d' s' E).
  - vm_compute in E. discriminate E.
Defined.


(** C9. With [do_random_shifts = False], two runs of [dream] on the same
    image, objective, iteration count and learning rate return the same
    result, whatever the random source, the [shift] setting and the state
    they start from. *)
Theorem dream_noshift_deterministic
  (resample : PILImage -> nat -> nat -> nat -> nat -> nat -> byte)
  (net : Net) (draws1 draws2 : nat -> Z) (shift1 shift2 : Z)
  (grad_fn : GradFn) (lr : Q) (img : PILImage) (n_iter : Z) (s1 s2 : St) :
  fst (dream resample net draws1 false shift1 grad_fn lr img n_iter s1)
  = fst (dream resample net draws2 false shift2 grad_fn lr img n_iter s2).
Proof.
  unfold dream, bind.
  pose proof (dream_loop_noshift_indep net draws1 draws2 shift1 shift2 grad_fn lr
                (Z.to_nat n_iter) (img_transform resample img) s1 s2) as H.
  destruct (dream_loop net draws1 false shift1 grad_fn lr _ _ s1) as [[a|] t1],
           (dream_loop net draws2 false shift2 grad_fn lr _ _ s2) as [[b|] t2];
    simpl in H; try discriminate; [|reflexivity].
  inversion H; subst; reflexivity.
Qed.

(** C10. Also with random shifts, the gradient of every iteration has the
    full shape of the working image, every iterate keeps that shape, and the
    returned image is the preprocessed image's full size (H x W x C),
    whatever offsets are drawn. *)
Theorem working_image_full_shape
  (resample : PILImage -> nat -> nat -> nat -> nat -> nat -> byte)
  (net : Net) (draws : nat -> Z) (do_random_shifts : bool) (shift : Z)
  (grad_fn : GradFn) (lr : Q) :
  (forall d s g s',
     step_grad net draws do_random_shifts shift grad_fn d s = (Some g, s') ->
     shape g = shape d) /\
  (forall n d s d' s',
     dream_loop net draws do_random_shifts shift grad_fn lr n d s = (Some d', s') ->
     shape d' = shape d) /\
  (forall img n_iter s out s',
     dream resample net draws do_random_shifts shift grad_fn lr img n_iter s
       = (Some out, s') ->
     let p := img_transform resample img in
     shape out = (d1 p, d2 p, d0 p)).
Proof.
  split; [|split].
  - intros d s g s'. apply step_grad_shape.
  - intros n d s d' s'. apply dream_loop_shape.
  - intros img n_iter s out s' H p. exact (dream_shape _ _ _ _ _ _ _ _ _ _ _ _ H).
Qed.

Lemma working_image_full_shape_witness :
  exists g s',
    step_grad net_id some_draws true 20 default_grad_fn data_1x30x30 st0
      = (Some g, s') /\
    shape g = shape data_1x30x30.
Proof.
  destruct (step_grad net_id some_draws true 20 default_grad_fn data_1x30x30 st0)
    as [[g|] s'] eqn:E.
  - exists g, s'. split; [reflexivity|].
    exact (proj1 (working_image_full_shape nearest net_id some_draws true 20
                    default_grad_fn (1 # 50)) data_1x30x30 st0 g s' E).
  - vm_compute in E. discriminate E.
Defined.


(** C2 (counterexample). The claim that every element of the image
    returned by [dream] lies in [[0, 1]] fails: on the 256 x 256 gray image,
    with an objective back-propagating [torch.zeros_like] and one
    iteration, every element is NaN. *)
Lemma dream_range_cex :
  ~ (forall (resample : PILImage -> nat -> nat -> nat -> nat -> nat -> byte)
            (net : Net) (draws : nat -> Z) (flag : bool) (shift : Z)
            (grad_fn : GradFn) (lr : Q) (img : PILImage) (n_iter : Z)
            (s : St) (out : Tensor3) (s' : St),
       (0 <= n_iter)%Z ->
       dream resample net draws flag shift grad_fn lr img n_iter s = (Some out, s') ->
       forall i j k, in_shape out i j k -> in_unit (tat out i j k)).
Proof.
  intro H.
  destruct (net_id_dream_some nearest no_draws 20 zero_grad_fn (1 # 50)
              gray_image 1 st0 zero_grad_fn_stage2) as [out [s' E]].
  assert (Hnan : all_nan out).
  { apply (zero_grad_first_nan nearest net_id no_draws false 20 zero_grad_fn
             (1 # 50) gray_image 1 st0 out s'); [lia | | exact E].
    intros g s1 Hg. exact (zero_grad_fn_step_zero _ _ _ _ _ _ _ Hg). }
  pose proof (dream_shape _ _ _ _ _ _ _ _ _ _ _ _ E) as Hs.
  unfold shape in Hs. cbn in Hs. injection Hs as H0 H1 H2.
  assert (Hin : in_shape out 0 0 0) by (unfold in_shape; rewrite H0, H1, H2; lia).
  assert (H01 : (0 <= 1)%Z) by lia.
  pose proof (H _ _ _ _ _ _ _ _ _ _ _ _ H01 E 0%nat 0%nat 0%nat Hin) as Hu.
  rewrite (Hnan _ _ _ Hin) in Hu. exact Hu.
Qed.

(** C2 (amended). Every element of the image returned by [dream] is in
    [[0, 1]] or is NaN: [clamp(0, 1)] maps every value other than NaN into
    [[0, 1]] and leaves NaN as it is. *)
Theorem dream_output_unit_or_nan
  (resample : PILImage -> nat -> nat -> nat -> nat -> nat -> byte)
  (net : Net) (draws : nat -> Z) (flag : bool) (shift : Z)
  (grad_fn : GradFn) (lr : Q) (img : PILImage) (n_iter : Z)
  (s : St) (out : Tensor3) (s' : St) :
  dream resample net draws flag shift grad_fn lr img n_iter s = (Some out, s') ->
  forall i j k, in_shape out i j k ->
    in_unit (tat out i j k) \/ tat out i j k = NaN.
Proof.
  intro H. unfold dream, bind, ret in H.
  destruct (dream_loop net draws flag shift grad_fn lr
              (Z.to_nat n_iter) (img_transform resample img) s)
    as [[d'|] t] eqn:E; [|discriminate].
  inversion H; subst. intros i j k _. cbn. apply fclamp01_range.
Qed.

Lemma dream_output_unit_or_nan_witness :
  exists out s',
    dream nearest net_id no_draws true 20 default_grad_fn (1 # 50) gray_image 0 st0
      = (Some out, s') /\
    forall i j k, in_shape out i j k ->
      in_unit (tat out i j k) \/ tat out i j k = NaN.
Proof.
  exists (permute120 (tmap (fclamp 0 1)
            (unnormalize (img_transform nearest gray_image)))), st0.
  split; [reflexivity|].
  exact (dream_output_unit_or_nan nearest net_id no_draws true 20 default_grad_fn
           (1 # 50) gray_image 0 st0 _ st0 eq_refl).
Defined.

(** C5 (counterexample). The claim that an all-zero gradient makes the
    step a no-op fails: on a finite 3 x 1 x 2 image with the zero
    objective, the step turns entry (0, 0, 0), 1/2, into NaN. *)
Lemma zero_grad_step_cex :
  ~ (forall (net : Net) (draws : nat -> Z) (flag : bool) (shift : Z)
            (grad_fn : GradFn) (lr : Q) (d : Tensor3) (s : St)
            (d' : Tensor3) (s' : St),
       (forall g s1, step_grad net draws flag shift grad_fn d s = (Some g, s1) ->
                     all_zero g) ->
       dream_iter net draws flag shift grad_fn lr d s = (Some d', s') ->
       forall c i j, in_shape d c i j -> feq (tat d' c i j) (tat d c i j)).
Proof.
  intro H.
  destruct (dream_iter net_id no_draws false 20 zero_grad_fn (1 # 50)
              data_3x1x2 st0) as [[d'|] s'] eqn:E;
    [| vm_compute in E; discriminate E].
  assert (Hz : forall g s1,
             step_grad net_id no_draws false 20 zero_grad_fn data_3x1x2 st0
               = (Some g, s1) -> all_zero g)
    by (intros g s1 Hg; exact (zero_grad_fn_step_zero _ _ _ _ _ _ _ Hg)).
  assert (Hin : in_shape data_3x1x2 0 0 0) by (unfold in_shape; simpl; lia).
  pose proof (H _ _ _ _ _ _ _ _ _ _ Hz E 0%nat 0%nat 0%nat Hin) as Hf.
  destruct (dream_iter_some _ _ _ _ _ _ _ _ _ _ E) as [g [Hg ->]].
  rewrite (sgd_update_zero_grad (1 # 50) data_3x1x2 g
             (step_grad_shape _ _ _ _ _ _ _ _ _ Hg) (Hz g s' Hg) 0%nat 0%nat 0%nat Hin) in Hf.
  exact Hf.
Qed.

(** C5 (amended). No error is raised on a zero gradient: whenever the
    gradient computation succeeds, so does the update.  But when the first
    iteration's gradient is all zero, [grad_mean] is 0, the update
    [0 * learning_rate / 0] is NaN in every element, and every element of
    the returned image is NaN. *)
Theorem dream_zero_grad_nan
  (resample : PILImage -> nat -> nat -> nat -> nat -> nat -> byte)
  (net : Net) (draws : nat -> Z) (flag : bool) (shift : Z)
  (grad_fn : GradFn) (lr : Q) :
  (forall d s g s',
     step_grad net draws flag shift grad_fn d s = (Some g, s') ->
     dream_iter net draws flag shift grad_fn lr d s = (Some (sgd_update lr d g), s')) /\
  (forall img n_iter s out s',
     (1 <= n_iter)%Z ->
     (forall g s1, step_grad net draws flag shift grad_fn (img_transform resample img) s
                   = (Some g, s1) -> all_zero g) ->
     dream resample net draws flag shift grad_fn lr img n_iter s = (Some out, s') ->
     all_nan out).
Proof.
  split.
  - intros d s g s' H. unfold dream_iter, bind. rewrite H. reflexivity.
  - intros img n_iter s out s'. apply zero_grad_first_nan.
Qed.

Lemma dream_zero_grad_nan_witness :
  exists out s',
    dream nearest net_id no_draws false 20%Z zero_grad_fn (1 # 50) gray_image 1 st0
      = (Some out, s') /\ all_nan out.
Proof.
  destruct (net_id_dream_some nearest no_draws 20 zero_grad_fn (1 # 50)
              gray_image 1 st0 zero_grad_fn_stage2) as [out [s' E]].
  exists out, s'. split; [exact E|].
  apply (proj2 (dream_zero_grad_nan nearest net_id no_draws false 20%Z zero_grad_fn
                  (1 # 50)) gray_image 1%Z st0 out s'); [lia | | exact E].
  intros g s1 Hg. exact (zero_grad_fn_step_zero _ _ _ _ _ _ _ Hg).
Defined.




(** C6 (counterexample). The returned image does not keep the caller's
    spatial dimensions: a 512 x 512 image comes back 256 x 256. *)
Lemma dream_dims_cex :
  ~ (forall (resample : PILImage -> nat -> nat -> nat -> nat -> nat -> byte)
            (net : Net) (draws : nat -> Z) (flag : bool) (shift : Z)
            (grad_fn : GradFn) (lr : Q) (img : PILImage) (n_iter : Z)
            (s : St) (out : Tensor3) (s' : St),
       dream resample net draws flag shift grad_fn lr img n_iter s = (Some out, s') ->
       (d0 out, d1 out) = (ph img, pw img)).
Proof.
  intro H.
  pose proof (H nearest net_id no_draws false 20%Z default_grad_fn (1 # 50)
                big_image 0%Z st0 _ st0 eq_refl) as Hc.
  vm_compute in Hc. discriminate Hc.
Qed.

(** C6 (amended). A successful run of [dream] returns an image of the
    size [Resize(256)] gives the caller's image (shorter side 256, longer
    side [int(256 * long / short)], or the image's own size when its
    shorter side is 256), in H x W x C layout with 3 channels. *)
Theorem dream_output_dims
  (resample : PILImage -> nat -> nat -> nat -> nat -> nat -> byte)
  (net : Net) (draws : nat -> Z) (flag : bool) (shift : Z)
  (grad_fn : GradFn) (lr : Q) (img : PILImage) (n_iter : Z)
  (s : St) (out : Tensor3) (s' : St) :
  dream resample net draws flag shift grad_fn lr img n_iter s = (Some out, s') ->
  shape out = (snd (resize_dims (pw img) (ph img) 256),
               fst (resize_dims (pw img) (ph img) 256), 3%nat).
Proof.
  intro H. rewrite (dream_shape _ _ _ _ _ _ _ _ _ _ _ _ H).
  rewrite <- (resize_256_dims resample img). reflexivity.
Qed.

Lemma dream_output_dims_witness :
  shape (permute120 (tmap (fclamp 0 1) (unnormalize (img_transform nearest big_image))))
  = (snd (resize_dims 512 512 256), fst (resize_dims 512 512 256), 3%nat).
Proof.
  exact (dream_output_dims nearest net_id no_draws false 20%Z default_grad_fn (1 # 50)
           big_image 0%Z st0 _ st0 eq_refl).
Defined.





Lemma argmax_first_lt (n : nat) (f : nat -> fval) :
  (0 < n)%nat -> (argmax_first n f < n)%nat.
Proof.
  induction n as [|m IH]; intro H; [lia|].
  destruct m as [|m']; [cbn; lia|].
  change (argmax_first (S (S m')) f)
    with (if better (f (S m')) (f (argmax_first (S m') f)) then S m'
          else argmax_first (S m') f).
  destruct (better _ _); [lia|]. specialize (IH ltac:(lia)). lia.
Qed.



(** * Further properties of the notebook's code *)

Lemma net_id_loop_some (draws : nat -> Z) (shift : Z) (grad_fn : GradFn) (lr : Q)
  (n : nat) (d : Tensor3) (s : St) :
  seeds_stage2 grad_fn ->
  exists d' s', dream_loop net_id draws false shift grad_fn lr n d s = (Some d', s').
Proof.
  intro Hg. revert d s.
  induction n as [|n IH]; intros d s0; [exists d, s0; reflexivity|].
  destruct (net_id_step_some draws shift grad_fn d s0 Hg) as [g [s1 Hs]].
  assert (Hi : dream_iter net_id draws false shift grad_fn lr d s0
               = (Some (sgd_update lr d g), s1))
    by (unfold dream_iter, bind; rewrite Hs; reflexivity).
  cbn [dream_loop]. unfold bind. rewrite Hi. apply IH.
Qed.

(** The clamp of [torch.max] then [torch.min] gives NaN or a value
    between the bounds. *)
Lemma clamp_box (lo hi : Q) (v : fval) :
  lo <= hi ->
  fminimum (fmaximum v (Fin lo)) (Fin hi) = NaN \/
  exists x, fminimum (fmaximum v (Fin lo)) (Fin hi) = Fin x /\ lo <= x /\ x <= hi.
Proof.
  intro Hlh. destruct v as [x| | |].
  - right. rewrite fmaximum_fin, fminimum_fin. eexists. split; [reflexivity|].
    split.
    + apply Q.min_glb; [apply Q.le_max_r | exact Hlh].
    + apply Q.le_min_r.
  - left. reflexivity.
  - right. exists hi. split; [reflexivity|]. split; [exact Hlh | apply Qle_refl].
  - right. change (fmaximum NInf (Fin lo)) with (Fin lo).
    rewrite fminimum_fin. exists (Qmin lo hi). split; [reflexivity|].
    split; [apply Q.min_glb; [apply Qle_refl | exact Hlh] | apply Q.le_min_r].
Qed.

Lemma clamp_bounds_le (c : nat) : - mean_q c / std_q c <= (1 - mean_q c) / std_q c.
Proof. apply div_std_le. lra. Qed.

Lemma sgd_update_box (lr : Q) (d g : Tensor3) : box_or_nan (sgd_update lr d g).
Proof.
  intros c i j _. unfold sgd_update. cbn zeta. cbn [tat tchan_op].
  rewrite clamp_min_eq, clamp_max_eq. apply clamp_box, clamp_bounds_le.
Qed.

Lemma img_transform_box
  (resample : PILImage -> nat -> nat -> nat -> nat -> nat -> byte) (img : PILImage) :
  box_or_nan (img_transform resample img).
Proof. intros c i j _. right. apply img_transform_at. Qed.

Lemma dream_loop_box (net : Net) (draws : nat -> Z) (flag : bool) (shift : Z)
  (grad_fn : GradFn) (lr : Q) (n : nat) (d : Tensor3) (s : St)
  (d' : Tensor3) (s' : St) :
  box_or_nan d ->
  dream_loop net draws flag shift grad_fn lr n d s = (Some d', s') ->
  box_or_nan d'.
Proof.
  revert d s. induction n as [|n IH]; intros d s Hb H; simpl in H.
  - inversion H; subst; exact Hb.
  - unfold bind at 1 in H.
    destruct (dream_iter net draws flag shift grad_fn lr d s) as [[d1|] s1] eqn:E;
      [|discriminate].
    destruct (dream_iter_some net draws flag shift grad_fn lr d s d1 s1 E)
      as [g [_ ->]].
    exact (IH _ _ (sgd_update_box lr d g) H).
Qed.

(** When the update is computed: the view of the data fed to the model,
    drawn by [random_shift] when shifts are on. *)
Lemma step_grad_view (net : Net) (draws : nat -> Z) (flag : bool) (shift : Z)
  (grad_fn : GradFn) (d : Tensor3) (s : St) (g : Tensor3) (s' : St) :
  step_grad net draws flag shift grad_fn d s = (Some g, s') ->
  exists v l seed,
    view_ok d v /\
    (flag = false -> v = full_view d) /\
    (flag = true -> fst (random_shift draws shift d s) = Some v) /\
    g = unslice d v (vjp net (slice d v) l seed).
Proof.
  intro H. unfold step_grad in H.
  destruct flag.
  - destruct (random_shift_run draws shift d s) as [v [Hv Hok]].
    unfold bind at 1 in H. rewrite Hv in H.
    unfold bind, emit, lift, ret, raise in H. destr_all.
    exists v, n, t. split; [exact Hok|]. split; [discriminate|].
    split; [intros _; rewrite Hv; reflexivity | reflexivity].
  - unfold bind, emit, lift, ret, raise in H. destr_all.
    exists (full_view d), n, t. split; [apply full_view_ok|].
    split; [reflexivity|]. split; [discriminate | reflexivity].
Qed.

(** The working image of [dream] stays in the box of the clamps: the
    preprocessed image has every entry finite and between
    [clamp_min] and [clamp_max], and after any number of iterations, for
    any model, objective and learning rate, every entry is between the
    bounds or NaN (an infinite update is clamped to a bound). *)
Theorem dream_working_image_box
  (resample : PILImage -> nat -> nat -> nat -> nat -> nat -> byte)
  (img : PILImage) (net : Net) (draws : nat -> Z) (flag : bool) (shift : Z)
  (grad_fn : GradFn) (lr : Q) :
  box_or_nan (img_transform resample img) /\
  (forall n d s d' s',
     box_or_nan d ->
     dream_loop net draws flag shift grad_fn lr n d s = (Some d', s') ->
     box_or_nan d').
Proof.
  split; [apply img_transform_box|].
  intros n d s d' s'. apply dream_loop_box.
Qed.

Lemma dream_working_image_box_witness :
  exists d' s',
    dream_loop net_id no_draws false 20%Z default_grad_fn (1 # 50) 2 data_3x1x2 st0
      = (Some d', s') /\ box_or_nan d'.
Proof.
  destruct (net_id_loop_some no_draws 20 default_grad_fn (1 # 50) 2 data_3x1x2 st0
              default_grad_fn_stage2) as [d' [s' E]].
  exists d', s'. split; [exact E|].
  apply (proj2 (dream_working_image_box nearest gray_image net_id no_draws false 20%Z
                  default_grad_fn (1 # 50)) 2%nat data_3x1x2 st0 d' s'); [|exact E].
  intros c i j Hin. right. unfold in_shape in Hin. cbn in Hin.
  destruct Hin as [Hc [Hi Hj]].
  replace i with 0%nat by lia.
  destruct c as [|[|[|c]]]; try lia; destruct j as [|[|j]]; try lia;
    eexists; (split; [reflexivity|]); vm_compute; split; discriminate.
Defined.

(** The step never moves an entry against its gradient: for a
    nonnegative learning rate, a positive [grad_mean] and an entry inside
    the clamp bounds, the entry does not decrease where the gradient is
    nonnegative and does not increase where it is nonpositive. *)
Theorem sgd_update_direction (lr : Q) (d g : Tensor3) (c i j : nat) (x y q : Q) :
  0 <= lr ->
  tat d c i j = Fin x ->
  - mean_q c / std_q c <= x -> x <= (1 - mean_q c) / std_q c ->
  tat g c i j = Fin y ->
  tmean (tmap fabs g) = Fin q -> 0 < q ->
  exists x', tat (sgd_update lr d g) c i j = Fin x' /\
             (0 <= y -> x <= x') /\ (y <= 0 -> x' <= x).
Proof.
  intros Hlr Hx Hlo Hhi Hy Hq Hqp.
  assert (Hnz : ~ q == 0) by (intro E; rewrite E in Hqp; discriminate).
  rewrite (sgd_update_at lr d g c i j x y q Hx Hy Hq Hnz).
  eexists. split; [reflexivity|]. split; intro Hs.
  - assert (0 <= y * lr / q).
    { apply Qle_shift_div_l; [exact Hqp|]. rewrite Qmult_0_l. nra. }
    apply Q.min_glb; [|exact Hhi].
    apply (Qle_trans _ (x + y * lr / q)); [lra | apply Q.le_max_l].
  - assert (y * lr / q <= 0).
    { apply Qle_shift_div_r; [exact Hqp|]. rewrite Qmult_0_l. nra. }
    apply (Qle_trans _ (Qmax (x + y * lr / q) (- mean_q c / std_q c)));
      [apply Q.le_min_l|].
    apply Q.max_lub; lra.
Qed.

Lemma sgd_update_direction_witness :
  exists x', tat (sgd_update (1 # 50) data_3x1x2 data_3x1x2) 0 0 0 = Fin x' /\
             (0 <= 1 # 2 -> 1 # 2 <= x') /\ (1 # 2 <= 0 -> x' <= 1 # 2).
Proof.
  eapply (sgd_update_direction (1 # 50) data_3x1x2 data_3x1x2 0 0 0 (1 # 2) (1 # 2)).
  - discriminate.
  - reflexivity.
  - vm_compute. discriminate.
  - vm_compute. discriminate.
  - reflexivity.
  - vm_compute. reflexivity.
  - vm_compute. reflexivity.
Defined.



(** [random_shift] with [shift >= 1] (below, [random.randint(1, shift)]
    raises): it takes four draws and returns a crop inside the image that
    starts at most [shift] rows and columns in, loses at most [2 * shift]
    rows and columns, and always loses at least one row and one column of
    a non-empty image (the stop [-randint(1, shift)] is never the end). *)
Theorem random_shift_crop (draws : nat -> Z) (shift : Z) (d : Tensor3) (s : St) :
  (1 <= shift)%Z ->
  exists v,
    random_shift draws shift d s = (Some v, mkSt (4 + rpos s) (trace s)) /\
    view_ok d v /\
    (v_top v <= Z.to_nat shift)%nat /\ (v_left v <= Z.to_nat shift)%nat /\
    (d1 d - 2 * Z.to_nat shift <= v_h v)%nat /\
    (d2 d - 2 * Z.to_nat shift <= v_w v)%nat /\
    ((0 < d1 d)%nat -> (v_h v < d1 d)%nat) /\
    ((0 < d2 d)%nat -> (v_w v < d2 d)%nat).
Proof.
  intro Hs.
  pose proof (Z.mod_pos_bound (draws (rpos s)) (shift - 0 + 1)) as Ha.
  pose proof (Z.mod_pos_bound (draws (S (rpos s))) (shift - 1 + 1)) as Hb.
  pose proof (Z.mod_pos_bound (draws (S (S (rpos s)))) (shift - 0 + 1)) as Ha'.
  pose proof (Z.mod_pos_bound (draws (S (S (S (rpos s))))) (shift - 1 + 1)) as Hb'.
  exists (slice_view d (0 + draws (rpos s) mod (shift - 0 + 1))
                       (1 + draws (S (rpos s)) mod (shift - 1 + 1))
                       (0 + draws (S (S (rpos s))) mod (shift - 0 + 1))
                       (1 + draws (S (S (S (rpos s)))) mod (shift - 1 + 1)))%Z.
  split; [reflexivity|]. split; [apply slice_view_ok|].
  unfold slice_view, py_slice. cbn [v_top v_left v_h v_w]. lia.
Qed.

Lemma random_shift_crop_witness :
  exists v,
    random_shift some_draws 20%Z data_1x30x30 st0 = (Some v, mkSt 4 []) /\
    (v_h v < 30)%nat /\ (v_w v < 30)%nat.
Proof.
  destruct (random_shift_crop some_draws 20%Z data_1x30x30 st0 ltac:(lia))
    as [v [E [_ [_ [_ [_ [_ [Hh Hw]]]]]]]].
  exists v. split; [exact E|]. split; [apply Hh | apply Hw]; cbn; lia.
Defined.

Lemma step_grad_fst (net : Net) (draws : nat -> Z) (flag : bool) (shift : Z)
  (grad_fn : GradFn) (d : Tensor3) (s : St) :
  exists v,
    (flag = false -> v = full_view d) /\
    (flag = true -> fst (random_shift draws shift d s) = Some v) /\
    fst (step_grad net draws flag shift grad_fn d s)
    = match forward net (slice d v) with
      | Some out =>
          match grad_fn out with
          | Some (l, seed) =>
              match nth_error out l with
              | Some o =>
                  if Nat.eqb (d0 seed) (d0 o) && Nat.eqb (d1 seed) (d1 o)
                     && Nat.eqb (d2 seed) (d2 o)
                  then Some (unslice d v (vjp net (slice d v) l seed))
                  else None
              | None => None
              end
          | None => None
          end
      | None => None
      end.
Proof.
  unfold step_grad. destruct flag.
  - destruct (random_shift_run draws shift d s) as [v [Hv _]].
    exists v. split; [discriminate|]. split; [intros _; rewrite Hv; reflexivity|].
    unfold bind at 1. rewrite Hv.
    unfold bind, emit, lift, ret, raise. cbn beta iota zeta.
    destruct (forward net (slice d v)) as [out|]; [|reflexivity].
    destruct (grad_fn out) as [[l seed]|]; [|reflexivity].
    destruct (nth_error out l) as [o|]; [|reflexivity].
    destruct (_ && _ && _); reflexivity.
  - exists (full_view d). split; [reflexivity|]. split; [discriminate|].
    unfold bind, emit, lift, ret, raise. cbn beta iota zeta.
    destruct (forward net (slice d (full_view d))) as [out|]; [|reflexivity].
    destruct (grad_fn out) as [[l seed]|]; [|reflexivity].
    destruct (nth_error out l) as [o|]; [|reflexivity].
    destruct (_ && _ && _); reflexivity.
Qed.

Lemma step_grad_trace (net : Net) (draws : nat -> Z) (flag : bool) (shift : Z)
  (grad_fn : GradFn) (d : Tensor3) (s : St) (g : Tensor3) (s1 : St) :
  step_grad net draws flag shift grad_fn d s = (Some g, s1) ->
  trace s1 = trace s ++ [EvForward; EvObjective; EvBackward] /\
  rpos s1 = ((if flag then 4 else 0) + rpos s)%nat.
Proof.
  intro H. unfold step_grad in H. destruct flag.
  - destruct (random_shift_run draws shift d s) as [v [Hv _]].
    unfold bind at 1 in H. rewrite Hv in H.
    unfold bind, emit, lift, ret, raise in H. destr_all.
    cbn. rewrite <- !app_assoc. split; reflexivity.
  - unfold bind, emit, lift, ret, raise in H. destr_all.
    cbn. rewrite <- !app_assoc. split; reflexivity.
Qed.

Lemma dream_loop_trace (net : Net) (draws : nat -> Z) (flag : bool) (shift : Z)
  (grad_fn : GradFn) (lr : Q) (n : nat) (d : Tensor3) (s : St)
  (d' : Tensor3) (s' : St) :
  dream_loop net draws flag shift grad_fn lr n d s = (Some d', s') ->
  trace s' = trace s ++ concat (repeat [EvForward; EvObjective; EvBackward] n) /\
  rpos s' = ((if flag then 4 else 0) * n + rpos s)%nat.
Proof.
  revert d s. induction n as [|n IH]; intros d s H; cbn [dream_loop] in H.
  - inversion H; subst. cbn. rewrite app_nil_r. split; [reflexivity | lia].
  - unfold bind at 1 in H.
    destruct (dream_iter net draws flag shift grad_fn lr d s) as [[d1|] s1] eqn:E;
      [|discriminate].
    destruct (IH d1 s1 H) as [Ht Hr].
    unfold dream_iter, bind in E.
    destruct (step_grad net draws flag shift grad_fn d s) as [[g|] s2] eqn:Eg;
      [|discriminate].
    unfold ret in E. inversion E; subst.
    destruct (step_grad_trace _ _ _ _ _ _ _ _ _ Eg) as [Ht' Hr'].
    rewrite Ht, Ht', <- app_assoc. split; [reflexivity|].
    rewrite Hr, Hr'. destruct flag; lia.
Qed.

(** With [default_grad_fn] the backward pass never fails on the shape of
    its seed (the seed is [output[layer]] itself): a step fails exactly when
    the model raises or returns fewer than three stages, and otherwise
    gives the gradient of [output[2].backward(output[2])] scattered back
    from the crop. *)
Theorem default_grad_fn_step (net : Net) (draws : nat -> Z) (flag : bool) (shift : Z)
  (d : Tensor3) (s : St) :
  exists v,
    (flag = false -> v = full_view d) /\
    (flag = true -> fst (random_shift draws shift d s) = Some v) /\
    fst (step_grad net draws flag shift default_grad_fn d s)
    = match forward net (slice d v) with
      | Some out =>
          match nth_error out layer with
          | Some o => Some (unslice d v (vjp net (slice d v) layer o))
          | None => None
          end
      | None => None
      end.
Proof.
  unfold step_grad. destruct flag.
  - destruct (random_shift_run draws shift d s) as [v [Hv _]].
    exists v. split; [discriminate|]. split; [intros _; rewrite Hv; reflexivity|].
    unfold bind at 1. rewrite Hv.
    unfold bind, emit, lift, ret, raise, default_grad_fn. cbn beta iota zeta.
    destruct (forward net (slice d v)) as [out|]; [|reflexivity].
    destruct (nth_error out layer) as [o|] eqn:En; [|reflexivity].
    cbn -[layer]. rewrite En, !Nat.eqb_refl. reflexivity.
  - exists (full_view d). split; [reflexivity|]. split; [discriminate|].
    unfold bind, emit, lift, ret, raise, default_grad_fn. cbn beta iota zeta.
    destruct (forward net (slice d (full_view d))) as [out|]; [|reflexivity].
    destruct (nth_error out layer) as [o|] eqn:En; [|reflexivity].
    cbn -[layer]. rewrite En, !Nat.eqb_refl. reflexivity.
Qed.



(** With [my_grad_fn2] a step succeeds exactly when the model returns at
    least five stages and stage 4 has the shape [(1000, 1, 1)] of the
    seed; a model with fewer stages raises the [IndexError] of
    [output[4]], and any other shape of stage 4 makes [backward] raise. *)
Theorem my_grad_fn2_step (net : Net) (draws : nat -> Z) (flag : bool) (shift : Z)
  (d : Tensor3) (s : St) :
  exists v,
    (flag = false -> v = full_view d) /\
    (flag = true -> fst (random_shift draws shift d s) = Some v) /\
    (fst (step_grad net draws flag shift my_grad_fn2 d s) <> None <->
     exists out o, forward net (slice d v) = Some out /\ nth_error out 4 = Some o /\
                   shape o = (1000, 1, 1)%nat).
Proof.
  destruct (step_grad_fst net draws flag shift my_grad_fn2 d s) as [v [H1 [H2 H3]]].
  exists v. split; [exact H1|]. split; [exact H2|]. rewrite H3.
  destruct (forward net (slice d v)) as [out|].
  2: { split; [congruence | intros (out' & o & E & _); discriminate E]. }
  unfold my_grad_fn2.
  destruct (nth_error out 4) as [o|] eqn:E4.
  2: { split; [congruence | intros (out' & o & E & E' & _);
                             injection E as <-; congruence]. }
  cbn beta iota. rewrite E4. cbn [d0 d1 d2].
  destruct o as [a b c f]. unfold shape. cbn [d0 d1 d2].
  destruct (Nat.eqb_spec 1000 a) as [Ha|Ha];
  destruct (Nat.eqb_spec 1 b) as [Hb|Hb];
  destruct (Nat.eqb_spec 1 c) as [Hc|Hc]; cbn [andb];
  (split; [intros _; exists out, (mkT a b c f); split; [reflexivity|];
           split; [exact E4|]; subst; reflexivity
          | intros (out' & o & E & E' & Hs); injection E as <-;
            rewrite E4 in E'; injection E' as <-; injection Hs as -> -> ->;
            try congruence])
  || (split; [congruence|]; intros (out' & o & E & E' & Hs); injection E as <-;
      rewrite E4 in E'; injection E' as <-; injection Hs; intros; congruence).
Qed.

Lemma my_grad_fn2_step_witness :
  fst (step_grad net_id no_draws false 0%Z my_grad_fn2 data_3x1x2 st0) = None /\
  ~ (exists out o, forward net_id (slice data_3x1x2 (full_view data_3x1x2)) = Some out /\
                   nth_error out 4 = Some o /\ shape o = (1000, 1, 1)%nat).
Proof.
  destruct (my_grad_fn2_step net_id no_draws false 0%Z data_3x1x2 st0)
    as [v [Hv [_ Hiff]]].
  rewrite (Hv eq_refl) in Hiff.
  assert (Hn : ~ (exists out o, forward net_id (slice data_3x1x2 (full_view data_3x1x2))
                                = Some out /\ nth_error out 4 = Some o /\
                                shape o = (1000, 1, 1)%nat))
    by (intros (out & o & E & E4 & _); injection E as <-; discriminate E4).
  split; [|exact Hn].
  destruct (fst (step_grad net_id no_draws false 0%Z my_grad_fn2 data_3x1x2 st0)) eqn:E;
    [exfalso; apply Hn, Hiff; congruence | reflexivity].
Defined.

(** [img_transform] of a non-empty image has 3 channels, its shorter side
    is 256 ([Resize(256)]), and it keeps the orientation of the image: a
    portrait image stays portrait, a landscape one landscape. *)
Theorem img_transform_shape
  (resample : PILImage -> nat -> nat -> nat -> nat -> nat -> byte) (img : PILImage) :
  (0 < pw img)%nat -> (0 < ph img)%nat ->
  d0 (img_transform resample img) = 3%nat /\
  Nat.min (d1 (img_transform resample img)) (d2 (img_transform resample img)) = 256%nat /\
  ((pw img <= ph img)%nat ->
     (d2 (img_transform resample img) <= d1 (img_transform resample img))%nat) /\
  ((ph img <= pw img)%nat ->
     (d1 (img_transform resample img) <= d2 (img_transform resample img))%nat).
Proof.
  intros Hw Hh.
  change (d0 (img_transform resample img)) with 3%nat.
  change (d1 (img_transform resample img)) with (ph (resize resample img 256)).
  change (d2 (img_transform resample img)) with (pw (resize resample img 256)).
  pose proof (resize_256_dims resample img) as Hr.
  destruct (resize_dims (pw img) (ph img) 256) as [ow oh] eqn:Er.
  injection Hr as -> ->.
  unfold resize_dims in Er.
  destruct ((pw img <=? ph img) && (pw img =? 256) || (ph img <=? pw img) && (ph img =? 256))
    eqn:C.
  - injection Er as <- <-. split; [reflexivity|].
    apply orb_true_iff in C.
    destruct C as [C|C]; apply andb_true_iff in C; destruct C as [C1 C2];
      apply Nat.leb_le in C1; apply Nat.eqb_eq in C2; lia.
  - split; [reflexivity|].
    destruct (Nat.ltb_spec (pw img) (ph img)) as [Hlt|Hge].
    + apply pair_equal_spec in Er. destruct Er as [<- <-].
      assert (256 <= 256 * ph img / pw img)%nat
        by (apply Nat.div_le_lower_bound; lia).
      set (q := (256 * ph img / pw img)%nat) in *. lia.
    + apply pair_equal_spec in Er. destruct Er as [<- <-].
      assert (256 <= 256 * pw img / ph img)%nat
        by (apply Nat.div_le_lower_bound; lia).
      assert ((pw img <= ph img)%nat -> (256 * pw img / ph img <= 256)%nat)
        by (intro; apply Nat.Div0.div_le_upper_bound; lia).
      set (q := (256 * pw img / ph img)%nat) in *. lia.
Qed.

Lemma img_transform_shape_witness :
  (0 < pw big_image)%nat /\ (0 < ph big_image)%nat /\
  Nat.min (d1 (img_transform nearest big_image))
          (d2 (img_transform nearest big_image)) = 256%nat.
Proof.
  assert (Hw : (0 < pw big_image)%nat) by (cbn; lia).
  assert (Hh : (0 < ph big_image)%nat) by (cbn; lia).
  split; [exact Hw|]. split; [exact Hh|].
  exact (proj1 (proj2 (img_transform_shape nearest big_image Hw Hh))).
Defined.

(** A successful [dream] run calls the model, the objective and [backward]
    once each per iteration, in this order and nothing else, and takes four
    draws of the global random source per iteration with random shifts on
    and none with them off. *)
Theorem dream_trace_count
  (resample : PILImage -> nat -> nat -> nat -> nat -> nat -> byte)
  (net : Net) (draws : nat -> Z) (flag : bool) (shift : Z)
  (grad_fn : GradFn) (lr : Q) (img : PILImage) (n_iter : Z) (s : St)
  (out : Tensor3) (s' : St) :
  dream resample net draws flag shift grad_fn lr img n_iter s = (Some out, s') ->
  trace s' = trace s ++ concat (repeat [EvForward; EvObjective; EvBackward]
                                       (Z.to_nat n_iter)) /\
  rpos s' = ((if flag then 4 else 0) * Z.to_nat n_iter + rpos s)%nat.
Proof.
  intro H. unfold dream, bind in H.
  destruct (dream_loop net draws flag shift grad_fn lr (Z.to_nat n_iter)
              (img_transform resample img) s) as [[d'|] s1] eqn:E; [|discriminate].
  unfold ret in H. inversion H; subst.
  exact (dream_loop_trace _ _ _ _ _ _ _ _ _ _ _ E).
Qed.

Lemma dream_trace_count_witness :
  exists out s',
    dream nearest net_id no_draws false 0%Z default_grad_fn 1 gray_image 2%Z st0
      = (Some out, s') /\
    trace s' = [EvForward; EvObjective; EvBackward; EvForward; EvObjective; EvBackward] /\
    rpos s' = 0%nat.
Proof.
  destruct (net_id_dream_some nearest no_draws 0%Z default_grad_fn 1 gray_image 2%Z st0
              default_grad_fn_stage2) as [out [s' E]].
  exists out, s'. split; [exact E|].
  destruct (dream_trace_count nearest net_id no_draws false 0%Z default_grad_fn 1
              gray_image 2%Z st0 out s' E) as [Ht Hr].
  rewrite Ht, Hr. split; reflexivity.
Defined.

(** An entry of the working image that is NaN stays NaN through every
    iteration: [NaN + x] is NaN and [torch.max]/[torch.min] propagate it,
    whatever the gradient. *)
Theorem dream_loop_nan_entry (net : Net) (draws : nat -> Z) (flag : bool) (shift : Z)
  (grad_fn : GradFn) (lr : Q) (n : nat) (d : Tensor3) (s : St)
  (d' : Tensor3) (s' : St) (c i j : nat) :
  dream_loop net draws flag shift grad_fn lr n d s = (Some d', s') ->
  tat d c i j = NaN -> tat d' c i j = NaN.
Proof.
  revert d s. induction n as [|n IH]; intros d s H Hn; cbn [dream_loop] in H.
  - inversion H; subst; exact Hn.
  - unfold bind at 1 in H.
    destruct (dream_iter net draws flag shift grad_fn lr d s) as [[d1|] s1] eqn:E;
      [|discriminate].
    apply (IH d1 s1 H).
    destruct (dream_iter_some _ _ _ _ _ _ d s d1 s1 E) as [g [_ ->]].
    unfold sgd_update. cbn zeta. cbn [tat tchan_op tzip tmap].
    rewrite Hn. reflexivity.
Qed.

Lemma dream_loop_nan_entry_witness :
  exists d' s',
    dream_loop net_id no_draws false 0%Z default_grad_fn 1 3 data_nan st0
      = (Some d', s') /\
    tat data_nan 0 0 0 = NaN /\ tat d' 0 0 0 = NaN.
Proof.
  destruct (net_id_loop_some no_draws 0%Z default_grad_fn 1 3 data_nan st0
              default_grad_fn_stage2) as [d' [s' E]].
  exists d', s'. split; [exact E|]. split; [reflexivity|].
  exact (dream_loop_nan_entry net_id no_draws false 0%Z default_grad_fn 1 3 data_nan st0
           d' s' 0 0 0 E eq_refl).
Defined.

Lemma custom_forward_five
  (stem layer1 layer2 layer3 layer4 head : Tensor3 -> option Tensor3)
  (x : Tensor3) (out : list Tensor3) :
  custom_forward stem layer1 layer2 layer3 layer4 head x = Some out ->
  exists x1 x2 x3 x4 y, out = [x1; x2; x3; x4; y].
Proof.
  unfold custom_forward. intro H.
  destruct (stem x); [|discriminate].
  destruct (layer1 t); [|discriminate].
  destruct (layer2 t0); [|discriminate].
  destruct (layer3 t1); [|discriminate].
  destruct (layer4 t2); [|discriminate].
  destruct (head t3); [|discriminate].
  injection H as <-. eauto 6.
Qed.

(** With the stages of [CustomResNet.forward] as the model, a step of
    [dream] with [default_grad_fn] never raises an [IndexError] or a shape
    error: it fails exactly when one of the network's blocks raises on the
    (shifted) input, and otherwise back-propagates [output[2]], the result
    of [layer3]. *)
Theorem custom_resnet_default_step
  (stem layer1 layer2 layer3 layer4 head : Tensor3 -> option Tensor3)
  (bwd : Tensor3 -> nat -> Tensor3 -> Tensor3)
  (draws : nat -> Z) (flag : bool) (shift : Z) (d : Tensor3) (s : St) :
  let net := mkNet (custom_forward stem layer1 layer2 layer3 layer4 head) bwd in
  exists v,
    (flag = false -> v = full_view d) /\
    (flag = true -> fst (random_shift draws shift d s) = Some v) /\
    (fst (step_grad net draws flag shift default_grad_fn d s) = None <->
     custom_forward stem layer1 layer2 layer3 layer4 head (slice d v) = None) /\
    (forall g, fst (step_grad net draws flag shift default_grad_fn d s) = Some g ->
     exists out, custom_forward stem layer1 layer2 layer3 layer4 head (slice d v)
                 = Some out /\
                 g = unslice d v (bwd (slice d v) layer (nth layer out d))).
Proof.
  intro net.
  destruct (step_grad_fst net draws flag shift default_grad_fn d s) as [v [H1 [H2 H3]]].
  exists v. split; [exact H1|]. split; [exact H2|]. rewrite H3.
  change (forward net) with (custom_forward stem layer1 layer2 layer3 layer4 head).
  change (vjp net) with bwd.
  destruct (custom_forward stem layer1 layer2 layer3 layer4 head (slice d v))
    as [out|] eqn:E.
  - destruct (custom_forward_five _ _ _ _ _ _ _ _ E) as (x1 & x2 & x3 & x4 & y & ->).
    unfold default_grad_fn, layer. cbn. rewrite !Nat.eqb_refl. cbn.
    split; [split; discriminate|].
    intros g Hg. exists [x1; x2; x3; x4; y]. split; [reflexivity|].
    injection Hg as <-. reflexivity.
  - split; [split; reflexivity|]. intros g Hg; discriminate Hg.
Qed.

Lemma custom_resnet_default_step_witness :
  fst (step_grad (mkNet (custom_forward Some Some Some Some Some Some) (fun _ _ g => g))
         no_draws false 0%Z default_grad_fn data_3x1x2 st0) <> None.
Proof.
  destruct (custom_resnet_default_step Some Some Some Some Some Some (fun _ _ g => g)
              no_draws false 0%Z data_3x1x2 st0) as [v [Hv [_ [Hiff _]]]].
  rewrite (Hv eq_refl) in Hiff. intro E. apply Hiff in E. discriminate E.
Defined.
